(** * A unit-conversion facade in JavaScript, embedded and verified

    The development follows the repository file by file:

    - [ConverterSystem.js]: the facade with the per-category entry points
      and the batch, summary and rounding operations (module [Facade]);
    - the earlier revision of the same class, which still holds the
      unit dispatch for lengths and weights (module [Selector]);
    - the tests of [ConverterSelector] and of [InputValidator], from which
      the absent validator and the absent temperature selector are read
      together with the specification (modules [InputValidator] and
      [Temperature]).

    JavaScript numbers are kept behind an interface, [Number], with two
    realisations: IEEE 754 binary64 (Rocq's primitive floats), which is what
    the engine computes with, and the exact rationals, the idealisation in
    which the conversion formulas are algebraic identities.  What a round
    trip loses in binary64 is bounded from the specification of the
    primitive operations (module [Rounding64]). *)

From Stdlib Require Import ZArith QArith Qabs Qround Qpower Qcanon Floats String Ascii Lia Lqa.
From stdpp Require Import base option gmap strings list.

Set Default Proof Using "Type".
#[local] Open Scope string_scope.

(** ** Completion records: a call returns a value or throws *)

(** The errors the code and the built-ins throw.  [ValueError] is the
    specification's name for the class of the validator's range errors. *)
Inductive exn : Type :=
| TypeError (message : string)
| RangeError (message : string)
| ValueError (message : string)
| Error (message : string).

Inductive result (A : Type) : Type :=
| Ok (a : A)
| Throw (e : exn).
Arguments Ok {A} a.
Arguments Throw {A} e.

#[global] Instance result_ret : MRet result := @Ok.
#[global] Instance result_bind : MBind result := fun A B f r =>
  match r with
  | Ok a => f a
  | Throw e => Throw e
  end.
#[global] Instance result_fmap : FMap result := fun A B f r =>
  match r with
  | Ok a => Ok (f a)
  | Throw e => Throw e
  end.

Definition isOk {A} (r : result A) : bool :=
  match r with Ok _ => true | Throw _ => false end.

(** ** Strings *)

(** [String.prototype.toLowerCase] on the Basic Latin letters; every other
    character is left as it is.  The unit and category names of the code are
    all written in Basic Latin. *)
Definition lowerChar (c : ascii) : ascii :=
  let n := N_of_ascii c in
  if ((65 <=? n) && (n <=? 90))%N then ascii_of_N (n + 32) else c.

Fixpoint toLowerCase (s : string) : string :=
  match s with
  | EmptyString => EmptyString
  | String c s' => String (lowerChar c) (toLowerCase s')
  end.

(** ** Numbers *)

(** What the code needs of the Number type: the arithmetic operators, the
    comparison [<], the finiteness tests, the mathematical value of a finite
    number (written ℝ(x) in ECMA-262) and the Number value of a decimal
    numeral [±n / 10^f], which is how both source literals and [parseFloat]
    produce numbers. *)
Class Number (num : Type) : Type := {
  num_add : num → num → num;
  num_sub : num → num → num;
  num_mul : num → num → num;
  num_div : num → num → num;
  num_lt : num → num → bool;
  num_isFinite : num → bool;
  num_isNaN : num → bool;
  num_value : num → Q;
  num_ofDecimal : bool → N → nat → num
}.

Declare Scope js_scope.
Delimit Scope js_scope with js.
Infix "+" := num_add : js_scope.
Infix "-" := num_sub : js_scope.
Infix "*" := num_mul : js_scope.
Infix "/" := num_div : js_scope.
Infix "<?" := num_lt : js_scope.

(** A decimal literal of the source text: [literal 328084 5] is [3.28084]. *)
Definition literal {num : Type} `{!Number num} (n : N) (f : nat) : num := num_ofDecimal false n f.
(** A negated decimal literal: [negLiteral 27315 2] is [-273.15]. *)
Definition negLiteral {num : Type} `{!Number num} (n : N) (f : nat) : num := num_ofDecimal true n f.

(** *** Binary64 *)

Module Binary64.

(** The rational [±m * 2^e] that a finite double denotes; zero for the other
    values, which denote none. *)
Definition SFvalue (x : spec_float) : Q :=
  match x with
  | S754_finite s m e => (inject_Z (cond_Zopp s (Zpos m)) * Qpower 2 e)%Q
  | _ => 0%Q
  end.

(** ℝ(x) of a double, read off its sign, mantissa and exponent. *)
Definition value (x : float) : Q := SFvalue (Prim2SF x).

(** The double nearest to [±n / 10^f], ties to even: one correctly rounded
    division of two integers. *)
Definition ofDecimal (neg : bool) (n : N) (f : nat) : float :=
  let numerator :=
    match n with
    | N0 => S754_zero neg
    | Npos p => S754_finite neg p 0
    end in
  SF2Prim (SFdiv prec emax numerator (S754_finite false (Z.to_pos (10 ^ Z.of_nat f)) 0)).

#[global] Instance number : Number float := {|
  num_add := PrimFloat.add;
  num_sub := PrimFloat.sub;
  num_mul := PrimFloat.mul;
  num_div := PrimFloat.div;
  num_lt := PrimFloat.ltb;
  num_isFinite := PrimFloat.is_finite;
  num_isNaN := PrimFloat.is_nan;
  num_value := value;
  num_ofDecimal := ofDecimal
|}.

End Binary64.

(** *** Exact rationals *)

Module Exact.

Definition ofDecimal (neg : bool) (n : N) (f : nat) : Qc :=
  Q2Qc (cond_Zopp neg (Z.of_N n) # Z.to_pos (10 ^ Z.of_nat f)).

Definition ltb (x y : Qc) : bool :=
  match (x ?= y)%Qc with Lt => true | _ => false end.

#[global] Instance number : Number Qc := {|
  num_add := Qcplus;
  num_sub := Qcminus;
  num_mul := Qcmult;
  num_div := Qcdiv;
  num_lt := ltb;
  num_isFinite := fun _ => true;
  num_isNaN := fun _ => false;
  num_value := this;
  num_ofDecimal := ofDecimal
|}.

End Exact.

(** ** Values *)

(** The values a caller can pass and the operations can return: the
    primitives, arrays (dense, as lists), plain objects with their properties
    in insertion order, and the wrapper objects that [Object(v)] makes of
    primitives. *)
#[local] Unset Elimination Schemes.
Inductive value (num : Type) : Type :=
| VUndefined
| VNull
| VBool (b : bool)
| VNum (x : num)
| VStr (s : string)
| VArray (elements : list (value num))
| VObject (properties : list (string * value num))
| VNumberObject (x : num)
| VStringObject (s : string)
| VBooleanObject (b : bool).
#[local] Set Elimination Schemes.
Arguments VUndefined {num}.
Arguments VNull {num}.
Arguments VBool {num} b.
Arguments VNum {num} x.
Arguments VStr {num} s.
Arguments VArray {num} elements.
Arguments VObject {num} properties.
Arguments VNumberObject {num} x.
Arguments VStringObject {num} s.
Arguments VBooleanObject {num} b.

Definition isObject {num} (v : value num) : bool :=
  match v with
  | VArray _ | VObject _ | VNumberObject _ | VStringObject _ | VBooleanObject _ => true
  | _ => false
  end.

(** [typeof v === 'string'] *)
Definition isString {num} (v : value num) : bool :=
  match v with VStr _ => true | _ => false end.

(** [typeof v === 'number' && Number.isFinite(v)] *)
Definition isFiniteNumber {num} `{!Number num} (v : value num) : bool :=
  match v with VNum x => num_isFinite x | _ => false end.

(** Property read [o.name] on a plain object; [None] is [undefined]. *)
Fixpoint getField {num} (name : string) (properties : list (string * value num))
  : option (value num) :=
  match properties with
  | [] => None
  | (k, v) :: rest => if String.eqb k name then Some v else getField name rest
  end.

(** ** Built-ins *)

Section Builtins.
Context {num : Type} `{!Number num}.

(** The String that [Number.prototype.toFixed] returns, kept as its parse:
    a sign and the digits of [n] with [f] of them after the point
    ("-0.05" is [Digits true 5 2]), or the text of [Number::toString]
    for the numbers that [toFixed] does not round. *)
Inductive numeral : Type :=
| Digits (negative : bool) (n : N) (f : nat)
| NumberToString (x : num).

(** Truncation towards zero. *)
Definition truncate (q : Q) : Z := Z.quot (Qnum q) (Zpos (Qden q)).

(** [ToIntegerOrInfinity]; [None] stands for both infinities. *)
Definition toIntegerOrInfinity (x : num) : option Z :=
  if num_isNaN x then Some 0%Z
  else if num_isFinite x then Some (truncate (num_value x))
  else None.

(** The integer [n] for which [n / 10^f - x] is as close to zero as
    possible, the larger one when there are two ([x] is not negative). *)
Definition nearestScaled (x : Q) (f : nat) : N :=
  Z.to_N (Qfloor (x * inject_Z (10 ^ Z.of_nat f) + (1 # 2))).

(** [Number.prototype.toFixed(fractionDigits)] on the number [x], step by
    step as ECMA-262 words it. *)
Definition toFixed (x fractionDigits : num) : result numeral :=
  match toIntegerOrInfinity fractionDigits with
  | None => Throw (RangeError "toFixed() digits argument must be between 0 and 100")
  | Some f =>
      if ((f <? 0) || (100 <? f))%Z
      then Throw (RangeError "toFixed() digits argument must be between 0 and 100")
      else if negb (num_isFinite x) then Ok (NumberToString x)
      else
        let r := num_value x in
        let s := match (r ?= 0)%Q with Lt => true | _ => false end in
        let r := Qabs r in
        if Qle_bool (inject_Z (10 ^ 21)) r then Ok (NumberToString x)
        else Ok (Digits s (nearestScaled r (Z.to_nat f)) (Z.to_nat f))
  end.

(** [parseFloat] of a String that [toFixed] returned. *)
Definition parseFloat (s : numeral) : num :=
  match s with
  | Digits negative n f => num_ofDecimal negative n f
  | NumberToString x => x
  end.

(** The call [v.toFixed(fractionDigits)]: the method is found on numbers
    and on Number objects only. *)
Definition invokeToFixed (v : value num) (fractionDigits : num) : result numeral :=
  match v with
  | VNum x | VNumberObject x => toFixed x fractionDigits
  | VUndefined | VNull => Throw (TypeError "Cannot read properties of undefined (reading 'toFixed')")
  | _ => Throw (TypeError "convertedNumber.toFixed is not a function")
  end.

(** [Object(v)] called as a function: a fresh object for [undefined] and
    [null], the wrapper of a primitive, an object itself. *)
Definition objectCall (v : value num) : value num :=
  match v with
  | VUndefined | VNull => VObject []
  | VBool b => VBooleanObject b
  | VNum x => VNumberObject x
  | VStr s => VStringObject s
  | _ => v
  end.

(** A method of [Object.prototype] called as a plain function, so with
    [this] undefined (class bodies are strict code), on first argument [v]. *)
Definition objectPrototypeCall (name : string) (v : value num) : result (value num) :=
  if String.eqb name "toString" then Ok (VStr "[object Undefined]")
  else if String.eqb name "isPrototypeOf" && negb (isObject v) then Ok (VBool false)
  else Throw (TypeError "Cannot convert undefined or null to object").

(** [Array.prototype.map] with a callback that may throw: the elements are
    visited in order and the first exception ends the call. *)
Definition arrayMap {A B} (callback : A → result B) (elements : list A) : result (list B) :=
  mapM callback elements.

End Builtins.
Arguments numeral num : clear implicits.

(** ** Property tables *)

Inductive category : Type := Temperature | Length | Speed | Weight | Volume.

Definition categoryName (c : category) : string :=
  match c with
  | Temperature => "temperature"
  | Length => "length"
  | Speed => "speed"
  | Weight => "weight"
  | Volume => "volume"
  end.

(** What a property of the [#conversionMethods] object can hold, own or
    inherited. *)
Inductive property : Type :=
| ConversionMethod (c : category)
| ObjectConstructor
| ObjectPrototypeMethod (name : string)
| ObjectPrototype.

(** The object literal of the constructor: each key holds the entry point of
    its category, bound to the instance. *)
Definition conversionMethods : gmap string property :=
  {[ "temperature" := ConversionMethod Temperature;
     "length" := ConversionMethod Length;
     "speed" := ConversionMethod Speed;
     "weight" := ConversionMethod Weight;
     "volume" := ConversionMethod Volume ]}.

(** [Object.prototype], the prototype of every object literal. *)
Definition objectPrototype : gmap string property :=
  {[ "constructor" := ObjectConstructor;
     "__proto__" := ObjectPrototype;
     "__defineGetter__" := ObjectPrototypeMethod "__defineGetter__";
     "__defineSetter__" := ObjectPrototypeMethod "__defineSetter__";
     "__lookupGetter__" := ObjectPrototypeMethod "__lookupGetter__";
     "__lookupSetter__" := ObjectPrototypeMethod "__lookupSetter__";
     "hasOwnProperty" := ObjectPrototypeMethod "hasOwnProperty";
     "isPrototypeOf" := ObjectPrototypeMethod "isPrototypeOf";
     "propertyIsEnumerable" := ObjectPrototypeMethod "propertyIsEnumerable";
     "toLocaleString" := ObjectPrototypeMethod "toLocaleString";
     "toString" := ObjectPrototypeMethod "toString";
     "valueOf" := ObjectPrototypeMethod "valueOf" ]}.

(** The property read [this.#conversionMethods[key]]: own properties first,
    then the prototype chain; [None] is [undefined]. *)
Definition getConversionMethod (key : string) : option property :=
  match conversionMethods !! key with
  | Some p => Some p
  | None => objectPrototype !! key
  end.

(** ** InputValidator *)

Module InputValidator.
Section Validators.
Context {num : Type} `{!Number num}.

(** Modelled from the spec: [InputValidator.js] is absent; its tests and
    the specification give each validator's condition and message.  A
    validator that passes hands back the value at the type it has
    checked, which is how the embedding lets the caller go on using it
    as a string, a number or an array. *)
Definition validateInputTypeNumber (x : value num) : result num :=
  match x with
  | VNum n => if num_isFinite n then Ok n else Throw (TypeError "Input must be a number")
  | _ => Throw (TypeError "Input must be a number")
  end.

(** Modelled from the spec: fails when [x] is not a string. *)
Definition validateInputTypeString (x : value num) : result string :=
  match x with
  | VStr s => Ok s
  | _ => Throw (TypeError "Input must be a string")
  end.

(** Modelled from the spec: fails when [x] is not an ordered sequence. *)
Definition validateInputTypeArray (x : value num) : result (list (value num)) :=
  match x with
  | VArray elements => Ok elements
  | _ => Throw (TypeError "Input must be an array")
  end.

(** Modelled from the spec: fails when [x < 0]. *)
Definition validatePositiveNumber (x : num) : result unit :=
  if (x <? literal 0 0)%js then Throw (ValueError "Number must be positive") else Ok tt.

(** Modelled from the spec: fails when [x < -273.15]. *)
Definition validateCelsiusRange (x : num) : result unit :=
  if (x <? negLiteral 27315 2)%js
  then Throw (ValueError "Temperature must be greater than or equal to -273.15°C")
  else Ok tt.

(** Modelled from the spec: fails when [x < -459.67]. *)
Definition validateFahrenheitRange (x : num) : result unit :=
  if (x <? negLiteral 45967 2)%js
  then Throw (ValueError "Temperature must be greater than or equal to -459.67°F")
  else Ok tt.

End Validators.
End InputValidator.

(** ** The converters' formulas *)

(** The methods of [LengthConverter] that the dispatch calls.  The class is
    absent from the sources, so the dispatch is verified for any formulas. *)
Record LengthConverter (num : Type) : Type := {
  metersToFeet : num → num;
  feetToMeters : num → num;
  centimetersToInches : num → num;
  inchesToCentimeters : num → num
}.
Arguments metersToFeet {num} _ _.
Arguments feetToMeters {num} _ _.
Arguments centimetersToInches {num} _ _.
Arguments inchesToCentimeters {num} _ _.

(** The methods of [WeightConverter] that the dispatch calls. *)
Record WeightConverter (num : Type) : Type := {
  kilogramsToPounds : num → num;
  poundsToKilograms : num → num;
  gramsToOunces : num → num;
  ouncesToGrams : num → num
}.
Arguments kilogramsToPounds {num} _ _.
Arguments poundsToKilograms {num} _ _.
Arguments gramsToOunces {num} _ _.
Arguments ouncesToGrams {num} _ _.

(** ** The unit dispatch of the earlier ConverterSystem *)

Module Selector.
Section Dispatch.
Context {num : Type} `{!Number num}.
Variable lengthConverter : LengthConverter num.
Variable weightConverter : WeightConverter num.

Definition notAvailable : result num := Throw (Error "Conversion not available").

(** [s] is one of the labels of a [case] group. *)
Definition oneOf (s : string) (labels : list string) : bool :=
  existsb (String.eqb s) labels.

Definition convertFromMeters (convertTo : string) (numberToConvert : num) : result num :=
  if oneOf (toLowerCase convertTo) ["feet"; "ft"]
  then Ok (metersToFeet lengthConverter numberToConvert)
  else notAvailable.

Definition convertFromFeet (convertTo : string) (numberToConvert : num) : result num :=
  if oneOf (toLowerCase convertTo) ["meters"; "m"]
  then Ok (feetToMeters lengthConverter numberToConvert)
  else notAvailable.

Definition convertFromCentimeters (convertTo : string) (numberToConvert : num) : result num :=
  if oneOf (toLowerCase convertTo) ["inches"; "in"]
  then Ok (centimetersToInches lengthConverter numberToConvert)
  else notAvailable.

Definition convertFromInches (convertTo : string) (numberToConvert : num) : result num :=
  if oneOf (toLowerCase convertTo) ["centimeters"; "cm"]
  then Ok (inchesToCentimeters lengthConverter numberToConvert)
  else notAvailable.

Definition convertFromKilograms (convertTo : string) (numberToConvert : num) : result num :=
  if oneOf (toLowerCase convertTo) ["pounds"; "lb"]
  then Ok (kilogramsToPounds weightConverter numberToConvert)
  else notAvailable.

Definition convertFromPounds (convertTo : string) (numberToConvert : num) : result num :=
  if oneOf (toLowerCase convertTo) ["kilograms"; "kg"]
  then Ok (poundsToKilograms weightConverter numberToConvert)
  else notAvailable.

Definition convertFromGrams (convertTo : string) (numberToConvert : num) : result num :=
  if oneOf (toLowerCase convertTo) ["ounces"; "oz"]
  then Ok (gramsToOunces weightConverter numberToConvert)
  else notAvailable.

Definition convertFromOunces (convertTo : string) (numberToConvert : num) : result num :=
  if oneOf (toLowerCase convertTo) ["grams"; "g"]
  then Ok (ouncesToGrams weightConverter numberToConvert)
  else notAvailable.

(** [convertLength]: the [switch] on the lower-cased source unit. *)
Definition convertLength (convertFrom convertTo : string) (numberToConvert : num)
  : result num :=
  let unit := toLowerCase convertFrom in
  if oneOf unit ["meters"; "m"] then convertFromMeters convertTo numberToConvert
  else if oneOf unit ["feet"; "ft"] then convertFromFeet convertTo numberToConvert
  else if oneOf unit ["centimeters"; "cm"] then convertFromCentimeters convertTo numberToConvert
  else if oneOf unit ["inches"; "in"] then convertFromInches convertTo numberToConvert
  else notAvailable.

(** [convertWeight]: the [switch] on the lower-cased source unit. *)
Definition convertWeight (convertFrom convertTo : string) (numberToConvert : num)
  : result num :=
  let unit := toLowerCase convertFrom in
  if oneOf unit ["kilograms"; "kg"] then convertFromKilograms convertTo numberToConvert
  else if oneOf unit ["pounds"; "lb"] then convertFromPounds convertTo numberToConvert
  else if oneOf unit ["grams"; "g"] then convertFromGrams convertTo numberToConvert
  else if oneOf unit ["ounces"; "oz"] then convertFromOunces convertTo numberToConvert
  else notAvailable.

End Dispatch.
End Selector.

(** ** Formulas and temperature selectors read from the specification *)

Module Formulas.
Section Formulas.
Context {num : Type} `{!Number num}.

(** Modelled from the spec: [LengthConverter.js] is absent.  The
    specification gives [metersToFeet(x) = x * 3.28084] and
    [feetToMeters(x) = x / 3.28084]; for centimeters and inches it gives
    no constant, so the factor is a parameter used the same way: one
    direction multiplies by it, the other divides by it. *)
Definition lengthConverter (inchesPerCentimeter : num) : LengthConverter num := {|
  metersToFeet x := (x * literal 328084 5)%js;
  feetToMeters x := (x / literal 328084 5)%js;
  centimetersToInches x := (x * inchesPerCentimeter)%js;
  inchesToCentimeters x := (x / inchesPerCentimeter)%js
|}.

(** Modelled from the spec: [WeightConverter.js] is absent.  The
    specification gives [kilogramsToPounds(x) = x * 2.20462]; the way
    back divides by the same constant, and the factor between grams and
    ounces is a parameter. *)
Definition weightConverter (ouncesPerGram : num) : WeightConverter num := {|
  kilogramsToPounds x := (x * literal 220462 5)%js;
  poundsToKilograms x := (x / literal 220462 5)%js;
  gramsToOunces x := (x * ouncesPerGram)%js;
  ouncesToGrams x := (x / ouncesPerGram)%js
|}.

(** Modelled from the spec: [TemperatureConverter.js] is absent; the
    formulas are the specification's, with JavaScript's left-to-right
    grouping of [*] and [/]. *)
Definition celsiusToFahrenheit (x : num) : num :=
  (x * literal 9 0 / literal 5 0 + literal 32 0)%js.

Definition fahrenheitToCelsius (x : num) : num :=
  ((x - literal 32 0) * literal 5 0 / literal 9 0)%js.

End Formulas.
End Formulas.

Module Temperature.
Section Selectors.
Context {num : Type} `{!Number num}.

(** Modelled from the spec: [convertFromCelsius] of [ConverterSelector],
    absent from the sources.  Its tests give the unit name and the
    rejection of other targets, the specification the range check that
    the temperature converter runs; the dispatch is written as that of
    [convertFromMeters]. *)
Definition convertFromCelsius (convertTo : string) (numberToConvert : num) : result num :=
  _ ← InputValidator.validateCelsiusRange numberToConvert;
  if Selector.oneOf (toLowerCase convertTo) ["fahrenheit"]
  then Ok (Formulas.celsiusToFahrenheit numberToConvert)
  else Selector.notAvailable.

(** Modelled from the spec: [convertFromFahrenheit] of
    [ConverterSelector], read the same way. *)
Definition convertFromFahrenheit (convertTo : string) (numberToConvert : num) : result num :=
  _ ← InputValidator.validateFahrenheitRange numberToConvert;
  if Selector.oneOf (toLowerCase convertTo) ["celsius"]
  then Ok (Formulas.fahrenheitToCelsius numberToConvert)
  else Selector.notAvailable.

End Selectors.
End Temperature.

(** ** ConverterSystem.js *)

(** The [convert] method of a category converter, as the facade calls it:
    on two strings and a finite number, which is what validation lets
    through. *)
Definition Converter (num : Type) : Type := string → string → num → result num.

(** The instance: its private converter fields.  The validator has no state
    and the method table is the same for every instance. *)
Record ConverterSystem (num : Type) : Type := {
  lengthConverter : Converter num;
  temperatureConverter : Converter num;
  speedConverter : Converter num;
  weightConverter : Converter num;
  volumeConverter : Converter num
}.
Arguments lengthConverter {num} _.
Arguments temperatureConverter {num} _.
Arguments speedConverter {num} _.
Arguments weightConverter {num} _.
Arguments volumeConverter {num} _.

Module Facade.
Import InputValidator.

Section Methods.
Context {num : Type} `{!Number num}.
Variable this : ConverterSystem num.

(** [#validateInputs] *)
Definition validateInputs (convertFrom convertTo numberToConvert : value num)
  : result (string * string * num) :=
  from ← validateInputTypeString convertFrom;
  to ← validateInputTypeString convertTo;
  number ← validateInputTypeNumber numberToConvert;
  mret (from, to, number).

(** [#chooseConversionMethod]: every function and object is truthy, so
    only a missing property throws. *)
Definition chooseConversionMethod (conversionType : string) : result property :=
  match getConversionMethod (toLowerCase conversionType) with
  | None => Throw (Error "Conversion not available")
  | Some conversionMethod => Ok conversionMethod
  end.

Definition convertTemperature (convertFrom convertTo numberToConvert : value num)
  : result num :=
  '(from, to, number) ← validateInputs convertFrom convertTo numberToConvert;
  temperatureConverter this from to number.

Definition convertLength (convertFrom convertTo numberToConvert : value num)
  : result num :=
  '(from, to, number) ← validateInputs convertFrom convertTo numberToConvert;
  _ ← validatePositiveNumber number;
  lengthConverter this from to number.

Definition convertSpeed (convertFrom convertTo numberToConvert : value num)
  : result num :=
  '(from, to, number) ← validateInputs convertFrom convertTo numberToConvert;
  _ ← validatePositiveNumber number;
  speedConverter this from to number.

Definition convertWeight (convertFrom convertTo numberToConvert : value num)
  : result num :=
  '(from, to, number) ← validateInputs convertFrom convertTo numberToConvert;
  _ ← validatePositiveNumber number;
  weightConverter this from to number.

Definition convertVolume (convertFrom convertTo numberToConvert : value num)
  : result num :=
  '(from, to, number) ← validateInputs convertFrom convertTo numberToConvert;
  _ ← validatePositiveNumber number;
  volumeConverter this from to number.

(** The entry point that the constructor binds under a category's key. *)
Definition convert (c : category) : value num → value num → value num → result num :=
  match c with
  | Temperature => convertTemperature
  | Length => convertLength
  | Speed => convertSpeed
  | Weight => convertWeight
  | Volume => convertVolume
  end.

(** The call [conversionMethod(convertFrom, convertTo, number)]. *)
Definition callConversionMethod (conversionMethod : property)
  (convertFrom convertTo numberToConvert : value num) : result (value num) :=
  match conversionMethod with
  | ConversionMethod c => VNum <$> convert c convertFrom convertTo numberToConvert
  | ObjectConstructor => Ok (objectCall convertFrom)
  | ObjectPrototypeMethod name => objectPrototypeCall name convertFrom
  | ObjectPrototype => Throw (TypeError "conversionMethod is not a function")
  end.

Definition convertMultipleValues
  (conversionType convertFrom convertTo numbersToConvert : value num)
  : result (value num) :=
  type ← validateInputTypeString conversionType;
  numbers ← validateInputTypeArray numbersToConvert;
  conversionMethod ← chooseConversionMethod type;
  VArray <$> arrayMap (fun number =>
               callConversionMethod conversionMethod convertFrom convertTo number)
             numbers.

Definition convertWithSummary
  (conversionType convertFrom convertTo numberToConvert : value num)
  : result (value num) :=
  type ← validateInputTypeString conversionType;
  conversionMethod ← chooseConversionMethod type;
  convertedNumber ← callConversionMethod conversionMethod convertFrom convertTo numberToConvert;
  mret (VObject [ ("conversionType", conversionType);
                  ("convertFrom", convertFrom);
                  ("convertTo", convertTo);
                  ("numberToConvert", numberToConvert);
                  ("convertedNumber", convertedNumber) ]).

Definition convertAndRoundUp
  (conversionType convertFrom convertTo numberToConvert decimalPlaces : value num)
  : result (value num) :=
  type ← validateInputTypeString conversionType;
  places ← validateInputTypeNumber decimalPlaces;
  conversionMethod ← chooseConversionMethod type;
  convertedNumber ← callConversionMethod conversionMethod convertFrom convertTo numberToConvert;
  fixed ← invokeToFixed convertedNumber places;
  mret (VNum (parseFloat fixed)).

End Methods.
End Facade.

(** ** A concrete instance for the examples *)

Module Sample.
Section Sample.
Context {num : Type} `{!Number num}.

(** Modelled from the spec: the [convert] method of the temperature
    converter, absent from the sources, as a dispatch on the source unit
    over the two selectors that the tests name. *)
Definition convertTemperature : Converter num := fun convertFrom convertTo x =>
  let unit := toLowerCase convertFrom in
  if Selector.oneOf unit ["celsius"] then Temperature.convertFromCelsius convertTo x
  else if Selector.oneOf unit ["fahrenheit"] then Temperature.convertFromFahrenheit convertTo x
  else Selector.notAvailable.

(** An instance to evaluate the facade on: lengths and weights through
    the dispatch of the earlier revision, with 0.393701 inches to the
    centimeter and 0.035274 ounces to the gram; the speed and volume
    converters, of which the sources show nothing, support no pair. *)
Definition system : ConverterSystem num := {|
  lengthConverter := Selector.convertLength (Formulas.lengthConverter (literal 393701 6));
  temperatureConverter := convertTemperature;
  speedConverter := fun _ _ _ => Selector.notAvailable;
  weightConverter := Selector.convertWeight (Formulas.weightConverter (literal 35274 6));
  volumeConverter := fun _ _ _ => Selector.notAvailable
|}.

End Sample.
End Sample.

(** ** Vocabulary of the statements *)

(** [s] names the category [c], in any letter case. *)
Definition isCategory (s : string) (c : category) : Prop :=
  toLowerCase s = categoryName c.

(** The converter field behind a category's entry point. *)
Definition converterOf {num} (this : ConverterSystem num) (c : category) : Converter num :=
  match c with
  | Temperature => temperatureConverter this
  | Length => lengthConverter this
  | Speed => speedConverter this
  | Weight => weightConverter this
  | Volume => volumeConverter this
  end.

(** The categories whose entry point refuses negative values. *)
Definition checksPositivity (c : category) : bool :=
  match c with Temperature => false | _ => true end.

(** [v < 0] for a number [v]. *)
Definition isNegativeNumber {num : Type} `{!Number num} (v : value num) : bool :=
  match v with VNum x => (x <? literal 0 0)%js | _ => false end.

(** The rational that the numeral [Digits negative n f] denotes. *)
Definition decimalValue (negative : bool) (n : N) (f : nat) : Q :=
  (inject_Z (cond_Zopp negative (Z.of_N n)) / inject_Z (10 ^ Z.of_nat f))%Q.

(** [r] is [x] rounded to [f] decimal places, halves away from zero: [r] is
    a multiple of [10^-f] at distance at most half a unit of the last place
    from [x], and at exactly half a unit it is the one of larger magnitude. *)
Definition roundedHalfAwayFromZero (x : Q) (f : nat) (r : Q) : Prop :=
  let scale := inject_Z (10 ^ Z.of_nat f) in
  (∃ m : Z, r * scale == inject_Z m)%Q ∧
  (Qabs (r * scale - x * scale) <= 1 # 2)%Q ∧
  ((Qabs (r * scale - x * scale) == 1 # 2)%Q → (Qabs x < Qabs r)%Q).

(** A converter that reads its unit names only through their lower-casing. *)
Definition caseInsensitive {num} (conv : Converter num) : Prop :=
  ∀ from from' to to' x,
    toLowerCase from = toLowerCase from' →
    toLowerCase to = toLowerCase to' →
    conv from to x = conv from' to' x.

(** The [convertedNumber] property of a summary record. *)
Definition convertedNumberOf {num} (v : value num) : option (value num) :=
  match v with
  | VObject properties => getField "convertedNumber" properties
  | _ => None
  end.

(** The unit dispatch of the earlier revision read as a table: the accepted
    names of the source unit, those of the target unit, and the formula. *)
Definition lengthTable {num} (converter : LengthConverter num)
  : list (list string * list string * (num → num)) :=
  [ (["meters"; "m"], ["feet"; "ft"], metersToFeet converter);
    (["feet"; "ft"], ["meters"; "m"], feetToMeters converter);
    (["centimeters"; "cm"], ["inches"; "in"], centimetersToInches converter);
    (["inches"; "in"], ["centimeters"; "cm"], inchesToCentimeters converter) ].

Definition weightTable {num} (converter : WeightConverter num)
  : list (list string * list string * (num → num)) :=
  [ (["kilograms"; "kg"], ["pounds"; "lb"], kilogramsToPounds converter);
    (["pounds"; "lb"], ["kilograms"; "kg"], poundsToKilograms converter);
    (["grams"; "g"], ["ounces"; "oz"], gramsToOunces converter);
    (["ounces"; "oz"], ["grams"; "g"], ouncesToGrams converter) ].

(** [Array.isArray(v)] *)
Definition isArray {num} (v : value num) : bool :=
  match v with VArray _ => true | _ => false end.

(** The formula that a table holds for a pair of unit names: that of the
    first row whose names of the source unit and of the target unit hold
    the lower-cased arguments. *)
Definition lookupFormula {num} (table : list (list string * list string * (num → num)))
    (convertFrom convertTo : string) : option (num → num) :=
  match List.find (λ '(froms, tos, _),
                     Selector.oneOf (toLowerCase convertFrom) froms
                     && Selector.oneOf (toLowerCase convertTo) tos) table with
  | Some (_, _, formula) => Some formula
  | None => None
  end.

(** The outcome of a dispatch that found [formula], or found none. *)
Definition applyFormula {num} (formula : option (num → num)) (x : num) : result num :=
  match formula with
  | Some f => Ok (f x)
  | None => Throw (Error "Conversion not available")
  end.

(** *** Binary64 error analysis *)

(** The position of a rational [w] between the integers [m] and [m + 1],
    which is what the round and sticky bits of a shifted mantissa record. *)
Definition located (w : Q) (m : Z) (l : location) : Prop :=
  match l with
  | loc_Exact => (w == inject_Z m)%Q
  | loc_Inexact Lt => (inject_Z m < w ∧ w < inject_Z m + (1 # 2))%Q
  | loc_Inexact Eq => (w == inject_Z m + (1 # 2))%Q
  | loc_Inexact Gt => (inject_Z m + (1 # 2) < w ∧ w < inject_Z m + 1)%Q
  end.

Definition locatedRecord (w : Q) (r : shr_record) : Prop :=
  located w (shr_m r) (loc_of_shr_record r).

Definition pow2 (e : Z) : Q := Qpower 2 e.

(** Magnitude and sign of a finite double. *)
Definition magnitude (m : positive) (e : Z) : Q := (inject_Z (Zpos m) * pow2 e)%Q.

Definition sgn (s : bool) : Q := if s then (-1)%Q else 1%Q.

(** The unit roundoff of binary64. *)
Definition roundoff : Q := 1 # 2 ^ 53.

(** [x] has a magnitude between [2^lo] and [2^hi]. *)
Definition moderate (lo hi : Z) (x : Q) : Prop :=
  (pow2 lo <= Qabs x)%Q ∧ (Qabs x <= pow2 hi)%Q.

(** The double [z] differs from the double [x] by at most [2^-51] of the
    magnitude of [x]: four units of roundoff. *)
Definition closeTo (x z : float) : Prop :=
  (Qabs (Binary64.value z - Binary64.value x)
   <= Qabs (Binary64.value x) * (1 # 2 ^ 51))%Q.

(** * Properties *)

(** Case analysis on the [case] groups that a call went through, and the
    unit names that a passed test leaves. *)
Ltac split_dispatch H :=
  repeat match type of H with
         | context [Selector.oneOf ?s ?l] =>
             let E := fresh "E" in destruct (Selector.oneOf s l) eqn:E
         end.

(** ** Lower-casing and the method table *)

Lemma lowerChar_idemp c : lowerChar (lowerChar c) = lowerChar c.
Proof.
  destruct c as [[] [] [] [] [] [] [] []]; reflexivity.
Qed.

Lemma toLowerCase_idemp s : toLowerCase (toLowerCase s) = toLowerCase s.
Proof.
  induction s as [|c s IH]; simpl; [reflexivity|].
  by rewrite lowerChar_idemp, IH.
Qed.

Lemma categoryName_lower c : toLowerCase (categoryName c) = categoryName c.
Proof. by destruct c. Qed.

Lemma getConversionMethod_category c :
  getConversionMethod (categoryName c) = Some (ConversionMethod c).
Proof. by destruct c. Qed.

Section FacadeProperties.
Context {num : Type} `{!Number num}.
Variable this : ConverterSystem num.
Implicit Types (from to v : value num) (c : category) (s : string).

Import InputValidator Facade.

Lemma chooseConversionMethod_category s c :
  isCategory s c → chooseConversionMethod s = Ok (ConversionMethod c).
Proof.
  unfold isCategory, chooseConversionMethod. intros ->.
  by rewrite getConversionMethod_category.
Qed.

Lemma chooseConversionMethod_lower s s' :
  toLowerCase s = toLowerCase s' →
  chooseConversionMethod s = chooseConversionMethod s'.
Proof. unfold chooseConversionMethod. by intros ->. Qed.

(** Every entry point is its converter behind the same gate. *)
Lemma convert_unfold c from to v :
  convert this c from to v =
    ('(f, t, x) ← validateInputs from to v;
     _ ← (if checksPositivity c then validatePositiveNumber x else Ok tt);
     converterOf this c f t x).
Proof.
  destruct c; simpl; try reflexivity.
Qed.

(** C1. Each per-category entry point checks, in this order, that the two
    units are strings, that the value is a finite number and, except for
    temperatures, that the value is not negative, with the three messages
    of the validator; when all checks pass the call is the converter's, so
    a "Conversion not available" error is raised only after them. *)
Theorem entry_point_validation_order c from to v :
  (isString from && isString to = false →
     convert this c from to v = Throw (TypeError "Input must be a string")) ∧
  (isString from && isString to = true → isFiniteNumber v = false →
     convert this c from to v = Throw (TypeError "Input must be a number")) ∧
  (isString from && isString to = true → isFiniteNumber v = true →
     checksPositivity c = true → isNegativeNumber v = true →
     convert this c from to v = Throw (ValueError "Number must be positive")) ∧
  (∀ f t x, from = VStr f → to = VStr t → v = VNum x → num_isFinite x = true →
     checksPositivity c && isNegativeNumber v = false →
     convert this c from to v = converterOf this c f t x) ∧
  (convert this c from to v = Throw (Error "Conversion not available") →
     isString from && isString to = true ∧ isFiniteNumber v = true ∧
     checksPositivity c && isNegativeNumber v = false).
Proof.
  rewrite convert_unfold. unfold validateInputs, validatePositiveNumber.
  destruct from as [| |?|?|f|?|?|?|?|?]; simpl;
    try by (split_and!; intros; simplify_eq/=).
  destruct to as [| |?|?|t|?|?|?|?|?]; simpl;
    try by (split_and!; intros; simplify_eq/=).
  destruct v as [| |?|x|?|?|?|?|?|?]; simpl;
    try by (split_and!; intros; simplify_eq/=).
  destruct (num_isFinite x) eqn:Hfin; simpl;
    [|split_and!; intros; simplify_eq/=; split_and?; congruence].
  destruct (checksPositivity c) eqn:Hpos; simpl;
    [destruct (x <? literal 0 0)%js eqn:Hneg; simpl|];
    split_and!; intros; simplify_eq/=; split_and?; congruence.
Qed.

(** *** Arrays *)

Lemma arrayMap_Ok {A B} (f : A → result B) (l : list A) (ys : list B) :
  arrayMap f l = Ok ys ↔ Forall2 (λ a b, f a = Ok b) l ys.
Proof.
  unfold arrayMap. revert ys. induction l as [|a l IH]; intros ys; simpl.
  - split; [intros [= <-]; constructor | by inversion 1].
  - destruct (f a) as [y|e] eqn:Hv; simpl.
    + destruct (mapM f l) as [k|e] eqn:Hl; simpl.
      * split.
        -- intros [= <-]. constructor; [done|]. by apply IH.
        -- inversion 1 as [|? y' ? ys' Hy Hys]; subst.
           apply IH in Hys. rewrite Hv in Hy. by simplify_eq.
      * split; [done|]. inversion 1 as [|? y' ? ys' Hy Hys]; subst.
        by apply IH in Hys.
    + split; [done|]. inversion 1; congruence.
Qed.

Lemma arrayMap_Throw {A B} (f : A → result B) (pre post : list A) (a : A) e :
  (∀ u, u ∈ pre → isOk (f u) = true) →
  f a = Throw e →
  arrayMap f (pre ++ a :: post)%list = Throw e.
Proof.
  unfold arrayMap. intros Hpre Hv. induction pre as [|u pre IH]; simpl.
  - by rewrite Hv.
  - assert (Hu : isOk (f u) = true) by (apply Hpre; left).
    destruct (f u); [simpl|done].
    rewrite IH; [done|]. intros w Hw. apply Hpre. by right.
Qed.

Lemma arrayMap_isOk {A B} (f : A → result B) (l : list A) :
  (∀ u, u ∈ l → isOk (f u) = true) → isOk (arrayMap f l) = true.
Proof.
  unfold arrayMap. induction l as [|a l IH]; intros Hall; [done|]. simpl.
  assert (Ha : isOk (f a) = true) by (apply Hall; left).
  destruct (f a); [simpl|done].
  assert (Hl : isOk (mapM f l) = true) by (apply IH; intros u Hu; apply Hall; by right).
  by destruct (mapM f l).
Qed.

(** An element that fails, or none: the first one that does splits the
    array. *)
Lemma first_failure {A B} (f : A → result B) (l : list A) :
  (∀ u, u ∈ l → isOk (f u) = true) ∨
  (∃ (pre : list A) (a : A) post e, l = (pre ++ a :: post)%list ∧
     (∀ u, u ∈ pre → isOk (f u) = true) ∧ f a = Throw e).
Proof.
  induction l as [|u l [IH|(pre & a & post & e & -> & Hpre & Hv)]].
  - left. by inversion 1.
  - destruct (f u) as [y|e] eqn:Hu.
    + left. intros w [->|Hw]%elem_of_cons; [by rewrite Hu | by apply IH].
    + right. exists [], u, l, e. split_and!; [done| |done]. by inversion 1.
  - destruct (f u) as [y|e'] eqn:Hu.
    + right. exists (u :: pre), a, post, e. split_and!; [done| |done].
      intros w [->|Hw]%elem_of_cons; [by rewrite Hu | by apply Hpre].
    + right. exists [], u, (pre ++ a :: post)%list, e'. split_and!; [done| |done].
      by inversion 1.
Qed.

Lemma callConversionMethod_category c from to v :
  callConversionMethod this (ConversionMethod c) from to v
  = VNum <$> convert this c from to v.
Proof. reflexivity. Qed.

Lemma convertMultipleValues_category s c from to (vs : list (value num)) :
  isCategory s c →
  convertMultipleValues this (VStr s) from to (VArray vs)
  = VArray <$> arrayMap (λ v, VNum <$> convert this c from to v) vs.
Proof.
  intros Hc. unfold convertMultipleValues. simpl.
  by rewrite (chooseConversionMethod_category _ _ Hc).
Qed.

(** C2. For a category name, the batch call returns an array of the
    length of its input whose i-th element is the conversion of the i-th
    input; it returns when every element converts, and when one element is
    refused the call throws (the error of the first such element) and
    returns no array. *)
Theorem convertMultipleValues_elementwise s c from to (vs : list (value num)) :
  isCategory s c →
  (∀ r, convertMultipleValues this (VStr s) from to (VArray vs) = Ok r →
     ∃ ys : list num, r = VArray (VNum <$> ys) ∧ length ys = length vs ∧
       ∀ i v, vs !! i = Some v →
         ∃ y, ys !! i = Some y ∧ convert this c from to v = Ok y) ∧
  ((∀ v, v ∈ vs → isOk (convert this c from to v) = true) →
     isOk (convertMultipleValues this (VStr s) from to (VArray vs)) = true) ∧
  (∀ v, v ∈ vs → isOk (convert this c from to v) = false →
     isOk (convertMultipleValues this (VStr s) from to (VArray vs)) = false) ∧
  (∀ (pre : list (value num)) v post e, vs = (pre ++ v :: post)%list →
     (∀ u, u ∈ pre → isOk (convert this c from to u) = true) →
     convert this c from to v = Throw e →
     convertMultipleValues this (VStr s) from to (VArray vs) = Throw e).
Proof.
  intros Hc. rewrite (convertMultipleValues_category _ _ _ _ _ Hc).
  set (g := λ v, VNum <$> convert this c from to v).
  assert (Hg : ∀ v, isOk (g v) = isOk (convert this c from to v))
    by (intros v; unfold g; by destruct (convert this c from to v)).
  assert (Hthrow : ∀ (pre : list (value num)) v post e, vs = (pre ++ v :: post)%list →
     (∀ u, u ∈ pre → isOk (convert this c from to u) = true) →
     convert this c from to v = Throw e →
     VArray <$> arrayMap g vs = Throw e).
  { intros pre v post e -> Hpre Hv.
    rewrite (arrayMap_Throw g pre post v e); [done| |by unfold g; rewrite Hv].
    intros u Hu. rewrite Hg. by apply Hpre. }
  split_and!; [| | |exact Hthrow].
  - intros r Hr. destruct (arrayMap g vs) as [rs|e] eqn:Hmap; [|done].
    injection Hr as <-. apply arrayMap_Ok in Hmap.
    assert (∃ ys : list num, rs = VNum <$> ys ∧
              Forall2 (λ v y, convert this c from to v = Ok y) vs ys)
      as (ys & -> & Hys).
    { clear Hthrow. induction Hmap as [|v r vs' rs' Hv _ (ys & -> & IH)].
      - by exists [].
      - unfold g in Hv. destruct (convert this c from to v) as [y|] eqn:Hy; [|done].
        injection Hv as <-. exists (y :: ys). split; [done|]. by constructor. }
    exists ys. split_and!; [done | symmetry; by eapply Forall2_length |].
    intros i v Hi. destruct (Forall2_lookup_l _ _ _ _ _ Hys Hi) as (y & ? & ?).
    by exists y.
  - intros Hall.
    assert (Hok : isOk (arrayMap g vs) = true)
      by (apply arrayMap_isOk; intros u Hu; rewrite Hg; by apply Hall).
    by destruct (arrayMap g vs).
  - intros v Hv Hfail.
    destruct (first_failure g vs) as [Hok|(pre & w & post & e & Hvs & Hpre & Hw)].
    + rewrite <- Hg, (Hok v Hv) in Hfail. done.
    + subst vs. by rewrite (arrayMap_Throw g pre post w e).
Qed.

(** C9. For a category name and the empty array the batch call returns
    the empty array, whatever the two unit arguments are: no element means
    no call of the entry point, which is where units are validated. *)
Theorem convertMultipleValues_empty s c from to :
  isCategory s c →
  convertMultipleValues this (VStr s) from to (VArray []) = Ok (VArray []).
Proof.
  intros Hc. by rewrite (convertMultipleValues_category _ _ _ _ _ Hc).
Qed.

(** C8. For a category name, the summary of a conversion that succeeds
    holds the four arguments unchanged and, as [convertedNumber], the
    result of the category's entry point on the same arguments; a
    conversion that throws makes the summary call throw the same error. *)
Theorem convertWithSummary_echoes s c from to v :
  isCategory s c →
  (∀ y, convert this c from to v = Ok y →
     convertWithSummary this (VStr s) from to v
     = Ok (VObject [ ("conversionType", VStr s);
                     ("convertFrom", from);
                     ("convertTo", to);
                     ("numberToConvert", v);
                     ("convertedNumber", VNum y) ])) ∧
  (∀ e, convert this c from to v = Throw e →
     convertWithSummary this (VStr s) from to v = Throw e).
Proof.
  intros Hc. unfold convertWithSummary. simpl.
  rewrite (chooseConversionMethod_category _ _ Hc). simpl.
  split; intros ? ->; reflexivity.
Qed.

(** C10, as amended. When the category argument is a string and
    [decimalPlaces] is not a finite number, the rounding call throws
    TypeError "Input must be a number" whatever the category names and
    whatever the units and the value are: the check comes before the
    category is resolved and before any conversion. *)
Theorem decimalPlaces_checked_before_dispatch s from to v d :
  isFiniteNumber d = false →
  convertAndRoundUp this (VStr s) from to v d
  = Throw (TypeError "Input must be a number").
Proof.
  intros Hd. unfold convertAndRoundUp. simpl.
  destruct d as [| |?|x|?|?|?|?|?|?]; simpl in *; try done.
  by rewrite Hd.
Qed.

End FacadeProperties.

(** ** Rounding *)

Lemma scale_pos (f : nat) : (0 < inject_Z (10 ^ Z.of_nat f))%Q.
Proof.
  change 0%Q with (inject_Z 0). rewrite <- Zlt_Qlt.
  apply Z.pow_pos_nonneg; lia.
Qed.

Lemma nearestScaled_bounds (a : Q) (f : nat) :
  (0 <= a)%Q →
  let n := inject_Z (Z.of_N (nearestScaled a f)) in
  let scaled := (a * inject_Z (10 ^ Z.of_nat f))%Q in
  (n - scaled <= 1 # 2)%Q ∧ (scaled - n < 1 # 2)%Q.
Proof.
  intros Ha. unfold nearestScaled.
  pose proof (scale_pos f) as HS. revert HS.
  generalize (inject_Z (10 ^ Z.of_nat f)). intros S HS.
  assert (HaS : (0 <= a * S)%Q) by (apply Qmult_le_0_compat; lra).
  pose proof (Qfloor_le (a * S + (1 # 2))) as Hle.
  pose proof (Qlt_floor (a * S + (1 # 2))) as Hlt.
  assert (Hfl : (0 <= Qfloor (a * S + (1 # 2)))%Z).
  { change 0%Z with (Qfloor 0). apply Qfloor_resp_le. lra. }
  rewrite Z2N.id by done.
  rewrite inject_Z_plus in Hlt. change (inject_Z 1) with 1%Q in Hlt.
  revert Hle Hlt. generalize (inject_Z (Qfloor (a * S + (1 # 2)))). intros n Hle Hlt.
  simpl. split; lra.
Qed.

Lemma toFixed_digits_rounded (x : Q) (f : nat) :
  let negative := match (x ?= 0)%Q with Lt => true | _ => false end in
  roundedHalfAwayFromZero x f
    (decimalValue negative (nearestScaled (Qabs x) f) f).
Proof.
  intros negative. unfold roundedHalfAwayFromZero, decimalValue.
  pose proof (scale_pos f) as HS.
  pose proof (nearestScaled_bounds (Qabs x) f (Qabs_nonneg x)) as [Hup Hdown].
  simpl in Hup, Hdown.
  set (S := inject_Z (10 ^ Z.of_nat f)) in *.
  set (n := Z.of_N (nearestScaled (Qabs x) f)) in *.
  assert (Hn : (0 <= inject_Z n)%Q).
  { change 0%Q with (inject_Z 0). rewrite <- Zle_Qle. unfold n. lia. }
  clearbody n S.
  assert (HrS : (inject_Z (cond_Zopp negative n) / S * S == inject_Z (cond_Zopp negative n))%Q).
  { field. lra. }
  assert (Hsign : (negative = true ∧ x < 0 ∧ Qabs x == - x)%Q ∨ (negative = false ∧ 0 <= x ∧ Qabs x == x)%Q).
  { unfold negative. destruct (x ?= 0)%Q eqn:Hcmp.
    - right. apply Qeq_alt in Hcmp. split_and!; [done|lra|]. apply Qabs_pos. lra.
    - left. apply Qlt_alt in Hcmp. split_and!; [done|lra|]. apply Qabs_neg. lra.
    - right. apply Qgt_alt in Hcmp. split_and!; [done|lra|]. apply Qabs_pos. lra. }
  assert (Hdiff : (Qabs (inject_Z (cond_Zopp negative n) / S * S - x * S) == Qabs (inject_Z n - Qabs x * S))%Q).
  { rewrite HrS. destruct Hsign as [(-> & _ & Hx)|(-> & _ & Hx)]; unfold cond_Zopp.
    - rewrite inject_Z_opp, Hx, <- Qabs_opp. apply Qabs_wd. ring.
    - by rewrite Hx. }
  split_and!.
  - by exists (cond_Zopp negative n).
  - rewrite Hdiff. apply Qabs_Qle_condition. split; lra.
  - rewrite Hdiff. intros Htie.
    assert (Hgt : (Qabs x * S < inject_Z n)%Q).
    { revert Htie. apply Qabs_case; intros; lra. }
    assert (Hr : (Qabs (inject_Z (cond_Zopp negative n) / S) == inject_Z n / S)%Q).
    { destruct Hsign as [(-> & _)|(-> & _)]; unfold cond_Zopp.
      - rewrite inject_Z_opp.
        assert (Hopp : (- inject_Z n / S == - (inject_Z n / S))%Q) by (field; lra).
        rewrite Hopp.
        rewrite Qabs_opp. apply Qabs_pos. apply Qle_shift_div_l; lra.
      - apply Qabs_pos. apply Qle_shift_div_l; lra. }
    rewrite Hr. apply Qlt_shift_div_l; lra.
Qed.

Section RoundingProperties.
Context {num : Type} `{!Number num}.
Variable this : ConverterSystem num.

Import InputValidator Facade.

(** What [toFixed] returns for a number of digits in range. *)
Lemma toFixed_in_range (x p : num) (f : Z) :
  toIntegerOrInfinity p = Some f → (0 ≤ f ≤ 100)%Z →
  toFixed x p =
    Ok (if num_isFinite x && negb (Qle_bool (inject_Z (10 ^ 21)) (Qabs (num_value x)))
        then Digits (match (num_value x ?= 0)%Q with Lt => true | _ => false end)
                    (nearestScaled (Qabs (num_value x)) (Z.to_nat f)) (Z.to_nat f)
        else NumberToString x).
Proof.
  intros Hf Hrange. unfold toFixed. rewrite Hf.
  replace ((f <? 0) || (100 <? f))%Z with false by lia.
  destruct (num_isFinite x); simpl; [|done].
  by destruct (Qle_bool _ _).
Qed.

(** C7, as amended. For a category name, a conversion that succeeds with
    [y] and a finite [decimalPlaces] whose integer part [f] lies between 0
    and 100, the rounding call returns a number (not a string): the Number
    value of the decimal numeral that is [y] rounded to [f] places, halves
    away from zero, where [y] is taken at its exact value; a [y] that is
    not finite or is at least 10^21 in magnitude is returned as it is. *)
Theorem convertAndRoundUp_rounds s c (from to v : value num) (y p : num) (f : Z) :
  isCategory s c →
  convert this c from to v = Ok y →
  num_isFinite p = true →
  toIntegerOrInfinity p = Some f →
  (0 ≤ f ≤ 100)%Z →
  ∃ r : num,
    convertAndRoundUp this (VStr s) from to v (VNum p) = Ok (VNum r) ∧
    (num_isFinite y = true → (Qabs (num_value y) < inject_Z (10 ^ 21))%Q →
       ∃ negative n,
         r = num_ofDecimal negative n (Z.to_nat f) ∧
         roundedHalfAwayFromZero (num_value y) (Z.to_nat f)
           (decimalValue negative n (Z.to_nat f))) ∧
    (num_isFinite y = false ∨ (inject_Z (10 ^ 21) <= Qabs (num_value y))%Q → r = y).
Proof.
  intros Hc Hy Hp Hf Hrange. unfold convertAndRoundUp. simpl.
  rewrite Hp. simpl. rewrite (chooseConversionMethod_category _ _ Hc). simpl.
  rewrite Hy. simpl. rewrite (toFixed_in_range y p f Hf Hrange). simpl.
  eexists. split; [reflexivity|].
  destruct (num_isFinite y) eqn:Hfin; simpl.
  - destruct (Qle_bool (inject_Z (10 ^ 21)) (Qabs (num_value y))) eqn:Hbig; simpl.
    + apply Qle_bool_iff in Hbig. split; [intros _ Hlt; lra | done].
    + assert (Hsmall : ¬ (inject_Z (10 ^ 21) <= Qabs (num_value y))%Q)
        by (rewrite <- Qle_bool_iff; congruence).
      split.
      * intros _ _. eexists _, _. split; [reflexivity|].
        apply toFixed_digits_rounded.
      * intros [?|?]; [done|contradiction].
  - by split.
Qed.

(** For a category name and a conversion that succeeds, a finite
    [decimalPlaces] whose integer part is below 0 or above 100 makes the
    rounding call throw the RangeError of [toFixed]. *)
Theorem convertAndRoundUp_places_out_of_range s c (from to v : value num) (y p : num) (f : Z) :
  isCategory s c →
  convert this c from to v = Ok y →
  num_isFinite p = true →
  toIntegerOrInfinity p = Some f →
  (f < 0 ∨ 100 < f)%Z →
  convertAndRoundUp this (VStr s) from to v (VNum p)
  = Throw (RangeError "toFixed() digits argument must be between 0 and 100").
Proof.
  intros Hc Hy Hp Hf Hrange. unfold convertAndRoundUp. simpl.
  rewrite Hp. simpl. rewrite (chooseConversionMethod_category _ _ Hc). simpl.
  rewrite Hy. simpl. unfold toFixed. rewrite Hf.
  by replace ((f <? 0) || (100 <? f))%Z with true by lia.
Qed.

End RoundingProperties.

(** ** The unit dispatch *)

Lemma oneOf_true s labels : Selector.oneOf s labels = true ↔ s ∈ labels.
Proof.
  unfold Selector.oneOf. rewrite existsb_exists. split.
  - intros (k & Hk & ->%String.eqb_eq). by apply list_elem_of_In.
  - intros Hs. exists s. split; [by apply list_elem_of_In | apply String.eqb_refl].
Qed.

Ltac labels_to_eq :=
  repeat match goal with
         | E : Selector.oneOf _ _ = true |- _ =>
             apply oneOf_true in E;
             repeat (apply elem_of_cons in E as [E|E]); [..|by apply elem_of_nil in E]
         | E : Selector.oneOf _ _ = false |- _ => clear E
         end.

Ltac rewrite_units :=
  repeat match goal with
         | E : toLowerCase _ = _ |- _ => rewrite E; clear E
         end.

Section DispatchProperties.
Context {num : Type} `{!Number num}.
Variable lengths : LengthConverter num.
Variable weights : WeightConverter num.

Lemma convertLength_caseInsensitive : caseInsensitive (Selector.convertLength lengths).
Proof.
  intros from from' to to' x Hfrom Hto.
  unfold Selector.convertLength, Selector.convertFromMeters, Selector.convertFromFeet,
    Selector.convertFromCentimeters, Selector.convertFromInches.
  by rewrite Hfrom, Hto.
Qed.

Lemma convertWeight_caseInsensitive : caseInsensitive (Selector.convertWeight weights).
Proof.
  intros from from' to to' x Hfrom Hto.
  unfold Selector.convertWeight, Selector.convertFromKilograms, Selector.convertFromPounds,
    Selector.convertFromGrams, Selector.convertFromOunces.
  by rewrite Hfrom, Hto.
Qed.

(** Every name of a source unit with every name of its target unit
    reaches the formula of the pair. *)
Lemma convertLength_table from to x froms tos formula :
  (froms, tos, formula) ∈ lengthTable lengths →
  toLowerCase from ∈ froms → toLowerCase to ∈ tos →
  Selector.convertLength lengths from to x = Ok (formula x).
Proof.
  unfold lengthTable. intros Hentry Hfrom Hto.
  repeat (apply elem_of_cons in Hentry as [Hentry|Hentry]);
    [..|by apply elem_of_nil in Hentry]; injection Hentry as -> -> ->;
    repeat (apply elem_of_cons in Hfrom as [Hfrom|Hfrom]);
    try (by apply elem_of_nil in Hfrom);
    repeat (apply elem_of_cons in Hto as [Hto|Hto]);
    try (by apply elem_of_nil in Hto);
    unfold Selector.convertLength, Selector.convertFromMeters, Selector.convertFromFeet,
      Selector.convertFromCentimeters, Selector.convertFromInches;
    by rewrite Hfrom, Hto.
Qed.

Lemma convertWeight_table from to x froms tos formula :
  (froms, tos, formula) ∈ weightTable weights →
  toLowerCase from ∈ froms → toLowerCase to ∈ tos →
  Selector.convertWeight weights from to x = Ok (formula x).
Proof.
  unfold weightTable. intros Hentry Hfrom Hto.
  repeat (apply elem_of_cons in Hentry as [Hentry|Hentry]);
    [..|by apply elem_of_nil in Hentry]; injection Hentry as -> -> ->;
    repeat (apply elem_of_cons in Hfrom as [Hfrom|Hfrom]);
    try (by apply elem_of_nil in Hfrom);
    repeat (apply elem_of_cons in Hto as [Hto|Hto]);
    try (by apply elem_of_nil in Hto);
    unfold Selector.convertWeight, Selector.convertFromKilograms, Selector.convertFromPounds,
      Selector.convertFromGrams, Selector.convertFromOunces;
    by rewrite Hfrom, Hto.
Qed.

End DispatchProperties.

Section CaseProperties.
Context {num : Type} `{!Number num}.
Import InputValidator Facade.

Lemma convert_caseInsensitive (this : ConverterSystem num) c from from' to to' v :
  caseInsensitive (converterOf this c) →
  toLowerCase from = toLowerCase from' →
  toLowerCase to = toLowerCase to' →
  convert this c (VStr from) (VStr to) v = convert this c (VStr from') (VStr to') v.
Proof.
  intros Hci Hfrom Hto. rewrite !convert_unfold. unfold validateInputs. simpl.
  destruct (validateInputTypeNumber v) as [x|e]; simpl; [|done].
  destruct (if checksPositivity c then validatePositiveNumber x else Ok ()); simpl; [|done].
  by apply Hci.
Qed.

(** C6. Strings are matched through their lower-casing only.  Two
    spellings of the unit names with the same lower-casing give the same
    result in the unit dispatch for lengths and for weights, where every
    accepted name of the source unit with every accepted name of the target
    unit (full word or abbreviation) reaches the one formula of the pair;
    they give the same result in every entry point of the facade whose
    converter dispatches on lower-cased names; and two spellings of the
    category give the same batch, the same rounded value and the same
    converted number in the summary. *)
Theorem matching_ignores_case (s s' from from' to to' : string) :
  toLowerCase s = toLowerCase s' →
  toLowerCase from = toLowerCase from' →
  toLowerCase to = toLowerCase to' →
  (∀ (lengths : LengthConverter num) (weights : WeightConverter num) x,
     Selector.convertLength lengths from to x = Selector.convertLength lengths from' to' x ∧
     Selector.convertWeight weights from to x = Selector.convertWeight weights from' to' x) ∧
  (∀ (lengths : LengthConverter num) (weights : WeightConverter num) x froms tos formula,
     toLowerCase from ∈ froms → toLowerCase to ∈ tos →
     ((froms, tos, formula) ∈ lengthTable lengths →
        Selector.convertLength lengths from to x = Ok (formula x) ∧
        Selector.convertLength lengths from' to' x = Ok (formula x)) ∧
     ((froms, tos, formula) ∈ weightTable weights →
        Selector.convertWeight weights from to x = Ok (formula x) ∧
        Selector.convertWeight weights from' to' x = Ok (formula x))) ∧
  (∀ (this : ConverterSystem num) c v,
     caseInsensitive (converterOf this c) →
     convert this c (VStr from) (VStr to) v = convert this c (VStr from') (VStr to') v) ∧
  (∀ (this : ConverterSystem num) a b v d,
     convertMultipleValues this (VStr s) a b v
     = convertMultipleValues this (VStr s') a b v ∧
     convertAndRoundUp this (VStr s) a b v d
     = convertAndRoundUp this (VStr s') a b v d ∧
     convertedNumberOf <$> convertWithSummary this (VStr s) a b v
     = convertedNumberOf <$> convertWithSummary this (VStr s') a b v).
Proof.
  intros Hs Hfrom Hto. split_and!.
  - intros lengths weights x. split.
    + by apply convertLength_caseInsensitive.
    + by apply convertWeight_caseInsensitive.
  - intros lengths weights x froms tos formula Hf Ht. split; intros Hentry.
    + split; [by eapply convertLength_table|].
      eapply convertLength_table; [done|by rewrite <- Hfrom|by rewrite <- Hto].
    + split; [by eapply convertWeight_table|].
      eapply convertWeight_table; [done|by rewrite <- Hfrom|by rewrite <- Hto].
  - intros this c v Hci. by apply convert_caseInsensitive.
  - intros this a b v d.
    unfold convertMultipleValues, convertAndRoundUp, convertWithSummary. simpl.
    rewrite (chooseConversionMethod_lower s s' Hs). split_and!; [done..|].
    destruct (chooseConversionMethod s') as [m|e]; simpl; [|done].
    by destruct (callConversionMethod this m a b v).
Qed.

End CaseProperties.

(** ** The category lookup *)

Lemma getConversionMethod_None s :
  getConversionMethod (toLowerCase s) = None ↔
  toLowerCase s ∉ ((categoryName <$> [Temperature; Length; Speed; Weight; Volume])
                   ++ ["constructor"; "__proto__"])%list.
Proof.
  unfold getConversionMethod, conversionMethods, objectPrototype.
  assert (Hk : toLowerCase (toLowerCase s) = toLowerCase s) by apply toLowerCase_idemp.
  revert Hk. generalize (toLowerCase s). intros k Hk. simpl.
  rewrite !lookup_insert, !lookup_singleton.
  repeat case_decide; subst; simpl; try done.
  all: split;
    [ intros ? Hin; try done;
      repeat (apply elem_of_cons in Hin as [Hin|Hin]; [congruence|]);
      by apply elem_of_nil in Hin
    | intros Hn; try done; exfalso; apply Hn;
      repeat first [apply list_elem_of_here | apply list_elem_of_further] ].
Qed.

Section LookupProperties.
Context {num : Type} `{!Number num}.
Variable this : ConverterSystem num.
Import InputValidator Facade.

(** A category string is rejected exactly when its lower-casing is
    neither a key of the method table nor a property that the table
    inherits: for every such string the three operations that take a
    category throw Error "Conversion not available". *)
Theorem unknown_category_rejected s :
  toLowerCase s ∉ ((categoryName <$> [Temperature; Length; Speed; Weight; Volume])
                   ++ ["constructor"; "__proto__"])%list →
  chooseConversionMethod s = Throw (Error "Conversion not available") ∧
  (∀ from to vs,
     convertMultipleValues this (VStr s) from to (VArray vs)
     = Throw (Error "Conversion not available")) ∧
  (∀ from to v,
     convertWithSummary this (VStr s) from to v
     = Throw (Error "Conversion not available")) ∧
  (∀ from to v d, isFiniteNumber d = true →
     convertAndRoundUp this (VStr s) from to v d
     = Throw (Error "Conversion not available")).
Proof.
  intros Hs%getConversionMethod_None.
  assert (Hchoose : chooseConversionMethod s = Throw (Error "Conversion not available"))
    by (unfold chooseConversionMethod; by rewrite Hs).
  unfold convertMultipleValues, convertWithSummary, convertAndRoundUp.
  split_and!; [done|intros; simpl; by rewrite Hchoose..|].
  intros from to v [| |?|x|?|?|?|?|?|?] Hd; simpl in *; try done.
  by rewrite Hd, Hchoose.
Qed.

End LookupProperties.

(** C3. The category is looked up by its lower-casing, but in an object
    that inherits from [Object.prototype]: the string "constructor" is none
    of the five keys and yet is not rejected.  The lookup finds the inherited
    [Object] function, so the summary and the batch return wrapper objects
    of the source-unit argument, and the rounding call returns the number 5
    when that argument is the number 5; none of the calls throws. *)
Theorem inherited_key_is_not_rejected (this : ConverterSystem float) :
  ("constructor" ∉ categoryName <$> [Temperature; Length; Speed; Weight; Volume]) ∧
  Facade.chooseConversionMethod "constructor" = Ok ObjectConstructor ∧
  Facade.convertWithSummary this
    (VStr "constructor") (VStr "m") (VStr "ft") (VNum 1%float)
  = Ok (VObject [ ("conversionType", VStr "constructor");
                  ("convertFrom", VStr "m");
                  ("convertTo", VStr "ft");
                  ("numberToConvert", VNum 1%float);
                  ("convertedNumber", VStringObject "m") ]) ∧
  Facade.convertMultipleValues this
    (VStr "constructor") (VStr "m") (VStr "ft") (VArray [VNum 1%float; VNum 2%float])
  = Ok (VArray [VStringObject "m"; VStringObject "m"]) ∧
  Facade.convertAndRoundUp this
    (VStr "constructor") (VNum 5%float) (VStr "ft") (VNum 1%float) (VNum 2%float)
  = Ok (VNum 5%float).
Proof.
  split_and!; [|reflexivity..].
  intros Hin. simpl in Hin.
  repeat (apply elem_of_cons in Hin as [Hin|Hin]; [discriminate|]).
  by apply elem_of_nil in Hin.
Qed.

(** ** The unit dispatch as a table *)

Ltac unfold_dispatch :=
  unfold Selector.convertLength, Selector.convertFromMeters, Selector.convertFromFeet,
    Selector.convertFromCentimeters, Selector.convertFromInches,
    Selector.convertWeight, Selector.convertFromKilograms, Selector.convertFromPounds,
    Selector.convertFromGrams, Selector.convertFromOunces, Selector.notAvailable in *.

(** The tests of the [case] groups on a unit name that is known. *)
Ltac known_units :=
  repeat match goal with
         | |- context [Selector.oneOf (String ?a ?s) ?l] =>
             let b := eval vm_compute in (Selector.oneOf (String a s) l) in
             change (Selector.oneOf (String a s) l) with b; cbv iota
         | H : context [Selector.oneOf (String ?a ?s) ?l] |- _ =>
             let b := eval vm_compute in (Selector.oneOf (String a s) l) in
             change (Selector.oneOf (String a s) l) with b in H; cbv iota in H
         end.

(** The [case] group, if any, that the lower-cased name [t] belongs to. *)
Ltac case_unit t :=
  repeat match goal with
         | |- context [Selector.oneOf t ?l] =>
             let E := fresh "E" in
             destruct (Selector.oneOf t l) eqn:E;
             [apply oneOf_true in E;
              repeat (apply elem_of_cons in E as [->|E]); [..|by apply elem_of_nil in E];
              try reflexivity|]
         end; try reflexivity.

Ltac source_unit E :=
  apply oneOf_true in E;
  repeat (apply elem_of_cons in E as [->|E]); [..|by apply elem_of_nil in E];
  cbn [Selector.oneOf existsb String.eqb Ascii.eqb Bool.eqb orb andb];
  by repeat match goal with |- context [if ?b then _ else _] => destruct b end.

Section DispatchTable.
Context {num : Type} `{!Number num}.
Variable lengths : LengthConverter num.
Variable weights : WeightConverter num.

(** The nested [switch] statements of [convertLength] and of
    [convertWeight] are a lookup in a table of four rows each: the call
    returns the formula of the row that holds both lower-cased names,
    applied to the number as it was passed, and throws Error "Conversion
    not available" when no row does; it throws nothing else. *)
Theorem dispatch_is_table_lookup (from to : string) (x : num) :
  Selector.convertLength lengths from to x
  = applyFormula (lookupFormula (lengthTable lengths) from to) x ∧
  Selector.convertWeight weights from to x
  = applyFormula (lookupFormula (weightTable weights) from to) x.
Proof.
  unfold lookupFormula, lengthTable, weightTable, applyFormula. unfold_dispatch.
  cbn [List.find].
  generalize (toLowerCase from) (toLowerCase to). intros f t.
  split.
  - destruct (Selector.oneOf f ["meters"; "m"]) eqn:E1; [source_unit E1|].
    destruct (Selector.oneOf f ["feet"; "ft"]) eqn:E2; [source_unit E2|].
    destruct (Selector.oneOf f ["centimeters"; "cm"]) eqn:E3; [source_unit E3|].
    destruct (Selector.oneOf f ["inches"; "in"]) eqn:E4; [source_unit E4|].
    reflexivity.
  - destruct (Selector.oneOf f ["kilograms"; "kg"]) eqn:E1; [source_unit E1|].
    destruct (Selector.oneOf f ["pounds"; "lb"]) eqn:E2; [source_unit E2|].
    destruct (Selector.oneOf f ["grams"; "g"]) eqn:E3; [source_unit E3|].
    destruct (Selector.oneOf f ["ounces"; "oz"]) eqn:E4; [source_unit E4|].
    reflexivity.
Qed.

(** A unit is not converted to itself, under any of its names, and
    conversions do not chain: when [from] converts to [mid] and [mid]
    converts to [to], the dispatch has no conversion from [from] to [to]. *)
Theorem no_identity_no_chain (from mid to : string) (x y z : num) :
  (toLowerCase from = toLowerCase to →
     Selector.convertLength lengths from to x = Throw (Error "Conversion not available") ∧
     Selector.convertWeight weights from to x = Throw (Error "Conversion not available")) ∧
  (isOk (Selector.convertLength lengths from mid x) = true →
   isOk (Selector.convertLength lengths mid to y) = true →
     Selector.convertLength lengths from to z = Throw (Error "Conversion not available")) ∧
  (isOk (Selector.convertWeight weights from mid x) = true →
   isOk (Selector.convertWeight weights mid to y) = true →
     Selector.convertWeight weights from to z = Throw (Error "Conversion not available")).
Proof.
  split_and!.
  - intros E. unfold_dispatch. rewrite E. generalize (toLowerCase to). intros t.
    split; case_unit t.
  - intros H1 H2. unfold_dispatch. revert H1 H2.
    generalize (toLowerCase from) (toLowerCase mid) (toLowerCase to). intros f m t H1 H2.
    split_dispatch H1; try discriminate H1; labels_to_eq; subst; clear H1.
    all: known_units; split_dispatch H2; try discriminate H2; labels_to_eq; subst.
    all: by known_units.
  - intros H1 H2. unfold_dispatch. revert H1 H2.
    generalize (toLowerCase from) (toLowerCase mid) (toLowerCase to). intros f m t H1 H2.
    split_dispatch H1; try discriminate H1; labels_to_eq; subst; clear H1.
    all: known_units; split_dispatch H2; try discriminate H2; labels_to_eq; subst.
    all: by known_units.
Qed.

(** Support is symmetric: a pair of names converts exactly when the
    reversed pair does, whatever the numbers and the formulas are. *)
Theorem supported_pairs_are_reversible
    (lengths' : LengthConverter num) (weights' : WeightConverter num)
    (from to : string) (x y : num) :
  isOk (Selector.convertLength lengths from to x)
  = isOk (Selector.convertLength lengths' to from y) ∧
  isOk (Selector.convertWeight weights from to x)
  = isOk (Selector.convertWeight weights' to from y).
Proof.
  unfold_dispatch. generalize (toLowerCase from) (toLowerCase to). intros f t.
  split.
  - case_unit f; known_units; case_unit t; by known_units.
  - case_unit f; known_units; case_unit t; by known_units.
Qed.

(** No pair of names converts both as lengths and as weights. *)
Theorem lengths_and_weights_are_disjoint (from to : string) (x y : num) :
  isOk (Selector.convertLength lengths from to x)
  && isOk (Selector.convertWeight weights from to y) = false.
Proof.
  unfold_dispatch. generalize (toLowerCase from) (toLowerCase to). intros f t.
  case_unit f; known_units; case_unit t; by known_units.
Qed.

End DispatchTable.

(** ** The operations that take a category *)

Section WrapperProperties.
Context {num : Type} `{!Number num}.
Import InputValidator Facade.
Variable this : ConverterSystem num.
Implicit Types (s : string) (from to v d : value num).

(** An entry point returns a number exactly when its two units are strings,
    its value is a finite number that is not negative where the category
    checks it, and the converter of the category returns that number on
    them: the facade returns nothing of its own. *)
Theorem entry_point_returns_iff c from to v (y : num) :
  convert this c from to v = Ok y ↔
  ∃ f t x, from = VStr f ∧ to = VStr t ∧ v = VNum x ∧
    num_isFinite x = true ∧
    checksPositivity c && (x <? literal 0 0)%js = false ∧
    converterOf this c f t x = Ok y.
Proof.
  rewrite convert_unfold. unfold validateInputs, validatePositiveNumber. split.
  - destruct from as [| | | |f| | | | |]; try (by cbn).
    destruct to as [| | | |t| | | | |]; try (by cbn).
    destruct v as [| | |x| | | | | |]; try (by cbn).
    cbn [validateInputTypeString validateInputTypeNumber mbind result_bind mret result_ret].
    destruct (num_isFinite x) eqn:Hx; [|by cbn].
    cbn [mbind result_bind mret result_ret].
    destruct (checksPositivity c); [destruct (x <? literal 0 0)%js eqn:Hneg; [by cbn|]|];
      cbn [mbind result_bind]; intros Hy; by exists f, t, x.
  - intros (f & t & x & -> & -> & -> & Hx & Hpos & Hy).
    cbn [validateInputTypeString validateInputTypeNumber mbind result_bind mret result_ret].
    rewrite Hx. cbn [mbind result_bind mret result_ret].
    destruct (checksPositivity c); [cbn [andb] in Hpos; rewrite Hpos|]; by cbn [mbind result_bind].
Qed.

(** The shape of the arguments is checked before the category is looked
    up.  A category that is not a string makes each of the three operations
    throw TypeError "Input must be a string", whatever the other arguments
    are; and with a string for the category, known or not, a batch that is
    not an array throws TypeError "Input must be an array". *)
Theorem wrappers_check_shape_first (t from to v d : value num) :
  (isString t = false →
     convertMultipleValues this t from to v = Throw (TypeError "Input must be a string") ∧
     convertWithSummary this t from to v = Throw (TypeError "Input must be a string") ∧
     convertAndRoundUp this t from to v d = Throw (TypeError "Input must be a string")) ∧
  (isString t = true → isArray v = false →
     convertMultipleValues this t from to v = Throw (TypeError "Input must be an array")).
Proof.
  split.
  - by destruct t.
  - destruct t; try discriminate. by destruct v.
Qed.

(** Rounding comes last: for a category name and a finite [decimalPlaces],
    in the range of [toFixed] or not, a conversion that throws makes the
    rounding call throw the same error. *)
Theorem conversion_error_before_rounding s c from to v (p : num) e :
  isCategory s c →
  num_isFinite p = true →
  convert this c from to v = Throw e →
  convertAndRoundUp this (VStr s) from to v (VNum p) = Throw e.
Proof.
  intros Hs Hp He. unfold convertAndRoundUp.
  cbn [validateInputTypeString validateInputTypeNumber mbind result_bind]. rewrite Hp.
  cbn [mbind result_bind].
  rewrite (chooseConversionMethod_category _ _ Hs). cbn [mbind result_bind callConversionMethod].
  by rewrite He.
Qed.

Lemma arrayMap_app {A B} (f : A → result B) (l k : list A) :
  arrayMap f (l ++ k)%list = (ys ← arrayMap f l; zs ← arrayMap f k; mret (ys ++ zs)%list).
Proof.
  unfold arrayMap. induction l as [|a l IH]; cbn [app mapM].
  - cbn [mbind result_bind mret result_ret]. by destruct (mapM f k).
  - destruct (f a) as [b|e]; cbn [mbind result_bind]; [|done].
    rewrite IH. destruct (mapM f l) as [ys|e]; cbn [mbind result_bind]; [|done].
    by destruct (mapM f k).
Qed.

(** A batch can be split: the batch of two arrays joined returns exactly
    when the batches of the two arrays return, and then it is their results
    joined.  This holds for every category string. *)
Theorem convertMultipleValues_app s from to (xs ys : list (value num)) :
  (∀ rs ss,
     convertMultipleValues this (VStr s) from to (VArray xs) = Ok (VArray rs) →
     convertMultipleValues this (VStr s) from to (VArray ys) = Ok (VArray ss) →
     convertMultipleValues this (VStr s) from to (VArray (xs ++ ys)%list)
     = Ok (VArray (rs ++ ss)%list)) ∧
  (∀ r,
     convertMultipleValues this (VStr s) from to (VArray (xs ++ ys)%list) = Ok r →
     ∃ rs ss, r = VArray (rs ++ ss)%list ∧
       convertMultipleValues this (VStr s) from to (VArray xs) = Ok (VArray rs) ∧
       convertMultipleValues this (VStr s) from to (VArray ys) = Ok (VArray ss)).
Proof.
  unfold convertMultipleValues.
  cbn [validateInputTypeString validateInputTypeArray mbind result_bind].
  destruct (chooseConversionMethod s) as [m|e]; cbn [mbind result_bind]; [|by split].
  rewrite arrayMap_app.
  destruct (arrayMap _ xs) as [rs|e]; cbn [mbind result_bind fmap result_fmap]; [|by split].
  destruct (arrayMap _ ys) as [ss|e]; cbn [mbind result_bind fmap result_fmap mret result_ret];
    [|by split].
  split.
  - by intros ?? [= <-] [= <-].
  - intros r [= <-]. by exists rs, ss.
Qed.

(** The three operations agree on one value, for every category string:
    the batch of the one-element array returns [y] exactly when the summary
    holds [y] as its converted number, the two succeed together, and the
    rounding call succeeds only if they do. *)
Theorem wrappers_agree_on_success s from to v d :
  (∀ y, convertMultipleValues this (VStr s) from to (VArray [v]) = Ok (VArray [y]) ↔
        convertedNumberOf <$> convertWithSummary this (VStr s) from to v = Ok (Some y)) ∧
  isOk (convertMultipleValues this (VStr s) from to (VArray [v]))
  = isOk (convertWithSummary this (VStr s) from to v) ∧
  (isOk (convertAndRoundUp this (VStr s) from to v d) = true →
   isOk (convertWithSummary this (VStr s) from to v) = true).
Proof.
  unfold convertMultipleValues, convertWithSummary, convertAndRoundUp, arrayMap.
  cbn [validateInputTypeString validateInputTypeArray mbind result_bind mapM].
  destruct (chooseConversionMethod s) as [m|e]; cbn [mbind result_bind].
  - destruct (callConversionMethod this m from to v) as [y|e];
      cbn [mbind result_bind mret result_ret fmap result_fmap isOk convertedNumberOf getField].
    + split_and!; [|done|done]. intros y'. cbn. split; by intros [= ->].
    + split_and!; [by split|done|]. by destruct (validateInputTypeNumber d).
  - split_and!; [by split|done|]. by destruct (validateInputTypeNumber d).
Qed.

(** With a category whose lower-casing is "constructor" no argument is
    validated and no conversion runs.  The summary call returns for every
    three arguments, with the object that [Object] makes of the source-unit
    argument as its converted number; the batch returns that object once
    for each element; and the rounding call rounds the source-unit argument
    itself when it is a number, and throws a TypeError when it is a
    string. *)
Theorem constructor_key_skips_validation s from to v (vs : list (value num)) :
  toLowerCase s = "constructor" →
  convertWithSummary this (VStr s) from to v
  = Ok (VObject [ ("conversionType", VStr s);
                  ("convertFrom", from);
                  ("convertTo", to);
                  ("numberToConvert", v);
                  ("convertedNumber", objectCall from) ]) ∧
  convertMultipleValues this (VStr s) from to (VArray vs)
  = Ok (VArray (replicate (length vs) (objectCall from))) ∧
  (∀ x p : num, from = VNum x → num_isFinite p = true →
     convertAndRoundUp this (VStr s) from to v (VNum p)
     = (λ fixed, VNum (parseFloat fixed)) <$> toFixed x p) ∧
  (∀ p : num, isString from = true → num_isFinite p = true →
     ∃ message, convertAndRoundUp this (VStr s) from to v (VNum p)
                = Throw (TypeError message)).
Proof.
  intros Hs.
  assert (Hm : chooseConversionMethod s = Ok ObjectConstructor).
  { unfold chooseConversionMethod. by rewrite Hs. }
  unfold convertMultipleValues, convertWithSummary, convertAndRoundUp, arrayMap.
  cbn [validateInputTypeString validateInputTypeArray validateInputTypeNumber
         mbind result_bind]. rewrite Hm.
  cbn [mbind result_bind callConversionMethod mret result_ret]. split_and!.
  - done.
  - f_equal. induction vs as [|u vs IH]; [done|].
    cbn [mapM mbind result_bind length replicate] in *.
    destruct (mapM _ vs) as [rs|e]; [|done]. cbn [fmap result_fmap mret result_ret] in *.
    by injection IH as ->.
  - intros x p -> ->. cbn [mbind result_bind objectCall invokeToFixed].
    by destruct (toFixed x p).
  - intros p Hfrom ->. destruct from; try discriminate Hfrom.
    cbn [mbind result_bind objectCall invokeToFixed]. by eexists.
Qed.

(** With a category whose lower-casing is "__proto__" the lookup finds
    [Object.prototype], which is an object and not a function: the call of
    it throws a TypeError, in the summary, in the rounding call and in a
    batch that has an element, whatever the other arguments are; the batch
    of the empty array returns the empty array. *)
Theorem proto_key_is_not_callable s from to v (vs : list (value num)) (p : num) :
  toLowerCase s = "__proto__" →
  num_isFinite p = true →
  convertMultipleValues this (VStr s) from to (VArray []) = Ok (VArray []) ∧
  ∃ message,
    convertMultipleValues this (VStr s) from to (VArray (v :: vs)) = Throw (TypeError message) ∧
    convertWithSummary this (VStr s) from to v = Throw (TypeError message) ∧
    convertAndRoundUp this (VStr s) from to v (VNum p) = Throw (TypeError message).
Proof.
  intros Hs Hp.
  assert (Hm : chooseConversionMethod s = Ok ObjectPrototype).
  { unfold chooseConversionMethod. by rewrite Hs. }
  unfold convertMultipleValues, convertWithSummary, convertAndRoundUp, arrayMap.
  cbn [validateInputTypeString validateInputTypeArray validateInputTypeNumber
         mbind result_bind]. rewrite Hm, Hp.
  cbn [mbind result_bind callConversionMethod mret result_ret mapM fmap result_fmap].
  split; [done|]. by eexists.
Qed.

(** Only the integer part of [decimalPlaces] counts: two finite numbers
    with the same integer part give the same outcome of the rounding call,
    for all other arguments. *)
Theorem decimalPlaces_integer_part s from to v (p p' : num) :
  num_isFinite p = true → num_isFinite p' = true →
  toIntegerOrInfinity p = toIntegerOrInfinity p' →
  convertAndRoundUp this (VStr s) from to v (VNum p)
  = convertAndRoundUp this (VStr s) from to v (VNum p').
Proof.
  intros Hp Hp' Hint. unfold convertAndRoundUp.
  cbn [validateInputTypeString validateInputTypeNumber mbind result_bind].
  rewrite Hp, Hp'. cbn [mbind result_bind].
  destruct (chooseConversionMethod s) as [m|e]; cbn [mbind result_bind]; [|done].
  destruct (callConversionMethod this m from to v) as [y|e]; cbn [mbind result_bind]; [|done].
  assert (Hfixed : ∀ x, toFixed x p = toFixed x p') by (intros x; unfold toFixed; by rewrite Hint).
  by destruct y; cbn [invokeToFixed]; rewrite ?Hfixed.
Qed.

End WrapperProperties.

(** ** Exact arithmetic *)

Module ExactFacts.

Lemma ltb_lt (x y : Qc) : Exact.ltb x y = true ↔ (x < y)%Q.
Proof.
  unfold Exact.ltb, Qccompare. rewrite Qlt_alt. by destruct (x ?= y)%Q.
Qed.

Lemma literal_nonzero (n : N) (f : nat) : n ≠ 0%N → (literal n f : Qc) ≠ 0%Qc.
Proof.
  intros Hn Heq. apply (f_equal this) in Heq.
  unfold literal in Heq. simpl in Heq.
  assert (H0 : (Qred (Z.of_N n # Z.to_pos (10 ^ Z.of_nat f)) == 0)%Q)
    by (rewrite Heq; reflexivity).
  rewrite Qred_correct in H0. unfold Qeq in H0. simpl in H0. lia.
Qed.

Lemma scale_unscale (k x : Qc) : k ≠ 0%Qc → (x * k / k)%js = x.
Proof. intros Hk. simpl. field. exact Hk. Qed.

Lemma unscale_scale (k x : Qc) : k ≠ 0%Qc → (x / k * k)%js = x.
Proof. intros Hk. simpl. field. exact Hk. Qed.

Lemma celsius_fahrenheit (x : Qc) :
  Formulas.fahrenheitToCelsius (Formulas.celsiusToFahrenheit x) = x.
Proof.
  unfold Formulas.fahrenheitToCelsius, Formulas.celsiusToFahrenheit. simpl.
  pose proof (literal_nonzero 5 0 ltac:(done)).
  pose proof (literal_nonzero 9 0 ltac:(done)).
  field. split; assumption.
Qed.

Lemma fahrenheit_celsius (x : Qc) :
  Formulas.celsiusToFahrenheit (Formulas.fahrenheitToCelsius x) = x.
Proof.
  unfold Formulas.fahrenheitToCelsius, Formulas.celsiusToFahrenheit. simpl.
  pose proof (literal_nonzero 5 0 ltac:(done)).
  pose proof (literal_nonzero 9 0 ltac:(done)).
  field. split; assumption.
Qed.

(** From the canonical rationals to [Q], where [lra] decides. *)
Ltac to_Q :=
  unfold Formulas.fahrenheitToCelsius, Formulas.celsiusToFahrenheit, literal, negLiteral;
  simpl num_add; simpl num_sub; simpl num_mul; simpl num_div;
  simpl num_ofDecimal; simpl num_lt;
  unfold Qcdiv, Qcinv, Qcmult, Qcplus, Qcminus, Qcopp, Exact.ofDecimal, Q2Qc;
  simpl this; rewrite ?Qred_correct;
  repeat match goal with
         | |- context [Qmake ?a ?b] =>
             progress (let v := eval vm_compute in (Qmake a b) in
                       change (Qmake a b) with v)
         end.

(** A temperature at or above absolute zero stays so in the other scale. *)
Lemma celsius_range (x : Qc) :
  (x <? negLiteral 27315 2)%js = false →
  (Formulas.celsiusToFahrenheit x <? negLiteral 45967 2)%js = false.
Proof.
  intros Hx. apply not_true_is_false. apply not_true_iff_false in Hx.
  intros Hy. apply Hx. simpl in *. apply ltb_lt. apply ltb_lt in Hy.
  revert Hy. to_Q. intros Hy.
  assert (E : (x * 9 * / 5 == x * (9 # 5))%Q) by field.
  rewrite E in Hy. lra.
Qed.

Lemma fahrenheit_range (x : Qc) :
  (x <? negLiteral 45967 2)%js = false →
  (Formulas.fahrenheitToCelsius x <? negLiteral 27315 2)%js = false.
Proof.
  intros Hx. apply not_true_is_false. apply not_true_iff_false in Hx.
  intros Hy. apply Hx. simpl in *. apply ltb_lt. apply ltb_lt in Hy.
  revert Hy. to_Q. intros Hy.
  assert (E : ((x - 32) * 5 * / 9 == (x - 32) * (5 # 9))%Q) by field.
  rewrite E in Hy. lra.
Qed.

Lemma length_round_trip (k : Qc) from to x y :
  k ≠ 0%Qc →
  Selector.convertLength (Formulas.lengthConverter k) from to x = Ok y →
  Selector.convertLength (Formulas.lengthConverter k) to from y = Ok x.
Proof.
  intros Hk H.
  pose proof (literal_nonzero 328084 5 ltac:(done)) as Hc.
  unfold Selector.convertLength, Selector.convertFromMeters, Selector.convertFromFeet,
    Selector.convertFromCentimeters, Selector.convertFromInches,
    Selector.notAvailable in *.
  split_dispatch H; try discriminate H; injection H as <-; labels_to_eq.
  all: rewrite_units; simpl Selector.oneOf; cbv iota; f_equal;
    first [ by apply scale_unscale | by apply unscale_scale ].
Qed.

Lemma weight_round_trip (k : Qc) from to x y :
  k ≠ 0%Qc →
  Selector.convertWeight (Formulas.weightConverter k) from to x = Ok y →
  Selector.convertWeight (Formulas.weightConverter k) to from y = Ok x.
Proof.
  intros Hk H.
  pose proof (literal_nonzero 220462 5 ltac:(done)) as Hc.
  unfold Selector.convertWeight, Selector.convertFromKilograms,
    Selector.convertFromPounds, Selector.convertFromGrams,
    Selector.convertFromOunces, Selector.notAvailable in *.
  split_dispatch H; try discriminate H; injection H as <-; labels_to_eq.
  all: rewrite_units; simpl Selector.oneOf; cbv iota; f_equal;
    first [ by apply scale_unscale | by apply unscale_scale ].
Qed.

Lemma celsius_round_trip to (x y : Qc) :
  Temperature.convertFromCelsius to x = Ok y →
  Temperature.convertFromFahrenheit "celsius" y = Ok x.
Proof.
  unfold Temperature.convertFromCelsius, InputValidator.validateCelsiusRange.
  intros H. destruct (x <? negLiteral 27315 2)%js eqn:Hx; [discriminate H|].
  cbn [mbind result_bind] in H.
  destruct (Selector.oneOf (toLowerCase to) ["fahrenheit"]); [|discriminate H].
  assert (Hy : Formulas.celsiusToFahrenheit x = y) by (by injection H).
  subst y. clear H.
  unfold Temperature.convertFromFahrenheit, InputValidator.validateFahrenheitRange.
  rewrite (celsius_range x Hx). cbn [mbind result_bind].
  change (Selector.oneOf (toLowerCase "celsius") ["celsius"]) with true. cbv iota.
  by rewrite celsius_fahrenheit.
Qed.

Lemma fahrenheit_round_trip to (x y : Qc) :
  Temperature.convertFromFahrenheit to x = Ok y →
  Temperature.convertFromCelsius "fahrenheit" y = Ok x.
Proof.
  unfold Temperature.convertFromFahrenheit, InputValidator.validateFahrenheitRange.
  intros H. destruct (x <? negLiteral 45967 2)%js eqn:Hx; [discriminate H|].
  cbn [mbind result_bind] in H.
  destruct (Selector.oneOf (toLowerCase to) ["celsius"]); [|discriminate H].
  assert (Hy : Formulas.fahrenheitToCelsius x = y) by (by injection H).
  subst y. clear H.
  unfold Temperature.convertFromCelsius, InputValidator.validateCelsiusRange.
  rewrite (fahrenheit_range x Hx). cbn [mbind result_bind].
  change (Selector.oneOf (toLowerCase "fahrenheit") ["fahrenheit"]) with true. cbv iota.
  by rewrite fahrenheit_celsius.
Qed.







End ExactFacts.

(** ** Binary64 arithmetic *)

(** The error of one multiplication or division of doubles, derived from
    the specification of the primitive operations ([SpecFloat]): the shifts
    that keep round and sticky bits, rounding to nearest even, and the
    quotient with its remainder. *)
Module Rounding64.
#[local] Open Scope Z_scope.

(** [digits2_pos] counts binary digits: [p] has [d] digits when
    [2^(d-1) <= p < 2^d]. *)
Lemma digits2_pos_bounds (p : positive) :
  2 ^ (Zpos (digits2_pos p) - 1) <= Zpos p < 2 ^ Zpos (digits2_pos p).
Proof.
  induction p as [p IH|p IH|]; simpl digits2_pos.
  - rewrite Pos2Z.inj_succ.
    replace (Z.succ (Zpos (digits2_pos p)) - 1) with (Zpos (digits2_pos p) - 1 + 1) by lia.
    rewrite Z.pow_succ_r by lia. rewrite Z.pow_add_r by lia. lia.
  - rewrite Pos2Z.inj_succ.
    replace (Z.succ (Zpos (digits2_pos p)) - 1) with (Zpos (digits2_pos p) - 1 + 1) by lia.
    rewrite Z.pow_succ_r by lia. rewrite Z.pow_add_r by lia. lia.
  - simpl. lia.
Qed.

Lemma Zdigits2_bounds (m : Z) :
  0 < m → 2 ^ (Zdigits2 m - 1) <= m < 2 ^ Zdigits2 m.
Proof.
  destruct m as [|p|p]; try lia. intros _. apply digits2_pos_bounds.
Qed.

(** The bracket determines the number of digits. *)
Lemma Zdigits2_unique (m d : Z) :
  2 ^ (d - 1) <= m < 2 ^ d → 0 < d → Zdigits2 m = d.
Proof.
  intros [Hlo Hhi] Hd.
  assert (Hm : 0 < m) by (pose proof (Z.pow_pos_nonneg 2 (d - 1)); lia).
  destruct (Zdigits2_bounds m Hm) as [Hlo' Hhi'].
  assert (Hdm : 0 < Zdigits2 m) by (destruct m; simpl; lia).
  destruct (Z.lt_trichotomy (Zdigits2 m) d) as [Hlt|[Heq|Hgt]]; [|done|].
  - exfalso. assert (2 ^ Zdigits2 m <= 2 ^ (d - 1)) by (apply Z.pow_le_mono_r; lia). lia.
  - exfalso. assert (2 ^ d <= 2 ^ (Zdigits2 m - 1)) by (apply Z.pow_le_mono_r; lia). lia.
Qed.

Lemma loc_of_shr_record_of_loc m l : loc_of_shr_record (shr_record_of_loc m l) = l.
Proof. by destruct l as [|[]]. Qed.

Lemma shr_m_of_loc m l : shr_m (shr_record_of_loc m l) = m.
Proof. by destruct l as [|[]]. Qed.

Lemma inject_Z_xO p : (inject_Z (Zpos p~0) == 2 * inject_Z (Zpos p))%Q.
Proof. rewrite <- (inject_Z_mult 2). reflexivity. Qed.

Lemma inject_Z_xI p : (inject_Z (Zpos p~1) == 2 * inject_Z (Zpos p) + 1)%Q.
Proof. rewrite <- (inject_Z_mult 2), <- (inject_Z_plus _ 1). reflexivity. Qed.

(** One right shift halves the rational that the record locates: the round
    and sticky bits keep track of the half that is shifted out. *)
Lemma shr_1_located (w : Q) (r : shr_record) :
  0 <= shr_m r → locatedRecord w r →
  0 <= shr_m (shr_1 r) ∧ locatedRecord (w * (1 # 2)) (shr_1 r).
Proof.
  destruct r as [m rb sb]. unfold locatedRecord. simpl shr_m.
  intros Hm Hw. destruct m as [|p|p]; [| |lia].
  - split; [by destruct rb, sb|].
    destruct rb, sb; simpl in *; change (inject_Z 0) with 0%Q in *; lra.
  - destruct p as [p|p|].
    + split; [simpl; lia|]. pose proof (inject_Z_xI p) as E.
      destruct rb, sb; simpl in *; lra.
    + split; [simpl; lia|]. pose proof (inject_Z_xO p) as E.
      destruct rb, sb; simpl in *; lra.
    + split; [simpl; lia|].
      destruct rb, sb; simpl in *; change (inject_Z 1) with 1%Q in *;
        change (inject_Z 0) with 0%Q in *; lra.
Qed.

Lemma located_compat (w w' : Q) m l : (w == w')%Q → located w m l → located w' m l.
Proof. intros E. destruct l as [|[]]; simpl; rewrite E; done. Qed.

Lemma pow2_xO (n : positive) : (2 ^ n~0 = 2 ^ n * 2 ^ n)%positive.
Proof.
  apply Pos2Z.inj. rewrite Pos2Z.inj_mul, !Pos2Z.inj_pow.
  rewrite <- Z.pow_add_r by lia. f_equal. lia.
Qed.

Lemma pow2_xI (n : positive) : (2 ^ n~1 = 2 * (2 ^ n * 2 ^ n))%positive.
Proof.
  apply Pos2Z.inj. rewrite !Pos2Z.inj_mul, !Pos2Z.inj_pow.
  rewrite <- Z.pow_add_r by lia. rewrite <- Z.pow_succ_r by lia. f_equal. lia.
Qed.

(** [n] right shifts divide the located rational by [2^n]. *)
Lemma iter_shr_1_located (n : positive) : ∀ (w : Q) (r : shr_record),
  0 <= shr_m r → locatedRecord w r →
  0 <= shr_m (SpecFloat.iter_pos shr_1 n r) ∧
  locatedRecord (w * (1 # 2 ^ n)) (SpecFloat.iter_pos shr_1 n r).
Proof.
  induction n as [n IH|n IH|]; intros w r Hm Hw; simpl SpecFloat.iter_pos.
  - destruct (shr_1_located w r Hm Hw) as [Hm1 Hw1].
    destruct (IH _ _ Hm1 Hw1) as [Hm2 Hw2].
    destruct (IH _ _ Hm2 Hw2) as [Hm3 Hw3].
    split; [done|]. unfold locatedRecord in *.
    eapply located_compat; [|exact Hw3].
    rewrite <- !Qmult_assoc. apply Qmult_comp; [reflexivity|].
    unfold Qeq, Qmult. simpl. rewrite pow2_xI. lia.
  - destruct (IH _ _ Hm Hw) as [Hm2 Hw2].
    destruct (IH _ _ Hm2 Hw2) as [Hm3 Hw3].
    split; [done|]. unfold locatedRecord in *.
    eapply located_compat; [|exact Hw3].
    rewrite <- !Qmult_assoc. apply Qmult_comp; [reflexivity|].
    unfold Qeq, Qmult. simpl. rewrite pow2_xO. lia.
  - destruct (shr_1_located w r Hm Hw) as [Hm1 Hw1]. split; [done|].
    unfold locatedRecord in *. eapply located_compat; [|exact Hw1]. reflexivity.
Qed.

(** A located rational lies between the integer and its successor. *)
Lemma located_bounds w m l : located w m l → (inject_Z m <= w < inject_Z m + 1)%Q.
Proof. destruct l as [|[]]; simpl; intros; lra. Qed.

(** Rounding to nearest, ties to even, picks the integer or its successor,
    at most one half away from the located rational. *)
Lemma round_nearest_even_close w m l :
  located w m l →
  let m' := round_nearest_even m l in
  (m <= m' <= m + 1) ∧ (Qabs (inject_Z m' - w) <= 1 # 2)%Q.
Proof.
  intros Hw. cbv zeta.
  assert (E : (inject_Z (m + 1) == inject_Z m + 1)%Q) by (rewrite inject_Z_plus; reflexivity).
  destruct l as [|[]]; unfold round_nearest_even; simpl in Hw.
  - split; [lia|]. apply Qabs_Qle_condition. lra.
  - destruct (Z.even m); (split; [lia|]); apply Qabs_Qle_condition; rewrite ?E; lra.
  - split; [lia|]. apply Qabs_Qle_condition. lra.
  - split; [lia|]. apply Qabs_Qle_condition. rewrite E. lra.
Qed.

(** ** Rounding to binary64 *)

(** Above the subnormal range the exponent leaves 53 digits. *)
Lemma fexp_normal (x : Z) : -1021 <= x → fexp prec emax x = x - 53.
Proof. intros Hx. unfold fexp, emin, prec, emax. lia. Qed.

(** In the normal range [shr_fexp] shifts a mantissa of at least 53 digits
    down to exactly 53 digits, and the record locates the scaled rational. *)
Lemma shr_fexp_normal (m e : Z) (l : location) (w : Q) :
  0 < m → located w m l →
  53 <= Zdigits2 m → -1021 <= Zdigits2 m + e →
  ∃ r, shr_fexp prec emax m e l = (r, e + (Zdigits2 m - 53)) ∧
       locatedRecord (w / inject_Z (2 ^ (Zdigits2 m - 53))) r ∧
       2 ^ 52 <= shr_m r < 2 ^ 53.
Proof.
  intros Hm Hw Hd He. unfold shr_fexp. rewrite (fexp_normal _ He).
  replace (Zdigits2 m + e - 53 - e) with (Zdigits2 m - 53) by lia.
  pose proof (Zdigits2_bounds m Hm) as [Hlo Hhi].
  destruct (Zdigits2 m - 53) as [|p|p] eqn:Hn; [| |lia].
  - exists (shr_record_of_loc m l). simpl shr. split; [f_equal; lia|].
    assert (Hd53 : Zdigits2 m = 53) by lia. rewrite Hd53 in Hlo, Hhi.
    unfold locatedRecord. rewrite shr_m_of_loc, loc_of_shr_record_of_loc.
    split; [|lia]. eapply located_compat; [|exact Hw].
    change (inject_Z (2 ^ 0)) with 1%Q. field.
  - exists (SpecFloat.iter_pos shr_1 p (shr_record_of_loc m l)). simpl shr. split; [done|].
    assert (Hm0 : 0 <= shr_m (shr_record_of_loc m l)) by (rewrite shr_m_of_loc; lia).
    assert (Hw0 : locatedRecord w (shr_record_of_loc m l))
      by (unfold locatedRecord; by rewrite shr_m_of_loc, loc_of_shr_record_of_loc).
    destruct (iter_shr_1_located p w _ Hm0 Hw0) as [Hm' Hw'].
    set (r := SpecFloat.iter_pos shr_1 p (shr_record_of_loc m l)) in *.
    assert (HP : inject_Z (2 ^ Z.pos p) = inject_Z (Zpos (2 ^ p))) by (by rewrite Pos2Z.inj_pow).
    assert (Hw'' : locatedRecord (w / inject_Z (2 ^ Z.pos p)) r).
    { unfold locatedRecord in *. eapply located_compat; [|exact Hw'].
      rewrite HP. unfold Qdiv, Qinv, inject_Z. simpl. reflexivity. }
    split; [done|].
    apply located_bounds in Hw''. apply located_bounds in Hw.
    assert (Hd' : Zdigits2 m = 53 + Z.pos p) by lia. rewrite Hd' in Hlo, Hhi.
    replace (53 + Z.pos p - 1) with (52 + Z.pos p) in Hlo by lia.
    rewrite Z.pow_add_r in Hlo, Hhi by lia.
    assert (HPpos : (0 < inject_Z (2 ^ Z.pos p))%Q).
    { change 0%Q with (inject_Z 0). rewrite <- Zlt_Qlt. apply Z.pow_pos_nonneg; lia. }
    rewrite Zle_Qle in Hlo. apply Zlt_le_succ in Hhi. rewrite Zle_Qle in Hhi.
    unfold Z.succ in Hhi. rewrite inject_Z_plus in Hhi.
    rewrite !inject_Z_mult in Hlo, Hhi. change (inject_Z 1) with 1%Q in Hhi.
    revert Hlo Hhi Hw Hw'' HPpos. generalize (inject_Z (2 ^ Z.pos p)). intros P Hlo Hhi Hw Hw'' HPpos.
    assert (HwP : (w / P * P == w)%Q) by (field; lra).
    revert Hw'' HwP. generalize (w / P)%Q. intros w' Hw'' HwP.
    assert (Hw'lo : (inject_Z (2 ^ 52) <= w')%Q).
    { apply (Qmult_le_r _ _ P); [done|]. rewrite HwP. lra. }
    assert (Hw'hi : (w' < inject_Z (2 ^ 53))%Q).
    { apply (Qmult_lt_r _ _ P); [done|]. rewrite HwP. lra. }
    split.
    + apply Z.lt_succ_r. rewrite Zlt_Qlt. unfold Z.succ. rewrite inject_Z_plus.
      change (inject_Z 1) with 1%Q. lra.
    + rewrite Zlt_Qlt. lra.
Qed.

(** After rounding, the second shift of [binary_round_aux] changes nothing
    unless the rounding carried to [2^53], when it shifts once. *)
Lemma shr_fexp_exact_small (m e : Z) :
  2 ^ 52 <= m < 2 ^ 53 → -1074 <= e →
  shr_fexp prec emax m e loc_Exact = (Build_shr_record m false false, e).
Proof.
  intros Hm He. unfold shr_fexp.
  rewrite (Zdigits2_unique m 53) by (done || lia).
  rewrite fexp_normal by lia. replace (53 + e - 53 - e) with 0 by lia. reflexivity.
Qed.

Lemma shr_fexp_exact_carry (e : Z) :
  -1075 <= e →
  shr_fexp prec emax (2 ^ 53) e loc_Exact = (Build_shr_record (2 ^ 52) false false, e + 1).
Proof.
  intros He. unfold shr_fexp.
  change (Zdigits2 (2 ^ 53)) with 54.
  rewrite fexp_normal by lia. replace (54 + e - 53 - e) with 1 by lia. reflexivity.
Qed.

(** Rounding in the normal range: the result is a finite double, with
    mantissa [m'] and exponent [e + n], within a relative error of [2^-53]
    of the located rational. *)
Lemma binary_round_aux_normal (s : bool) (m e : Z) (l : location) (w : Q) :
  0 < m → located w m l →
  53 <= Zdigits2 m → -1021 <= Zdigits2 m + e → Zdigits2 m + e <= 1023 →
  ∃ (m' : positive) (n : Z),
    0 <= n ∧
    binary_round_aux prec emax s m e l = S754_finite s m' (e + n) ∧
    (Qabs (inject_Z (Zpos m') * inject_Z (2 ^ n) - w) <= w * (1 # 2 ^ 53))%Q.
Proof.
  intros Hm Hw Hd Hlo Hhi. unfold binary_round_aux.
  destruct (shr_fexp_normal m e l w Hm Hw Hd Hlo) as (r & -> & Hr & Hmr).
  set (n := Zdigits2 m - 53) in *. assert (Hn : 0 <= n) by lia.
  destruct (round_nearest_even_close _ _ _ Hr) as [Hm1 Hclose].
  set (m1 := round_nearest_even (shr_m r) (loc_of_shr_record r)) in *.
  assert (HP : (0 < inject_Z (2 ^ n))%Q).
  { change 0%Q with (inject_Z 0). rewrite <- Zlt_Qlt. by apply Z.pow_pos_nonneg. }
  apply located_bounds in Hr.
  assert (Hlow : (inject_Z (2 ^ 52) <= inject_Z (shr_m r))%Q) by (rewrite <- Zle_Qle; lia).
  (* the error of [m1] at the scale of [w] *)
  assert (Herr : (Qabs (inject_Z m1 * inject_Z (2 ^ n) - w) <= w * (1 # 2 ^ 53))%Q).
  { revert Hr Hclose HP. generalize (inject_Z (2 ^ n)). intros P Hr Hclose HP.
    assert (HwP : (w / P * P == w)%Q) by (field; lra).
    revert Hr Hclose HwP. generalize (w / P)%Q. intros w' Hr Hclose HwP.
    apply Qabs_Qle_condition in Hclose. destruct Hclose as [Hc1 Hc2].
    assert (H1 : ((- (1 # 2)) * P <= (inject_Z m1 - w') * P)%Q)
      by (apply Qmult_le_compat_r; lra).
    assert (H2 : ((inject_Z m1 - w') * P <= (1 # 2) * P)%Q)
      by (apply Qmult_le_compat_r; lra).
    assert (H3 : (inject_Z (2 ^ 52) * P <= w' * P)%Q)
      by (apply Qmult_le_compat_r; lra).
    change (inject_Z (2 ^ 52)) with (4503599627370496 # 1)%Q in H3.
    change (1 # 2 ^ 53)%Q with (1 # 9007199254740992)%Q.
    apply Qabs_Qle_condition. rewrite <- HwP. split; lra. }
  destruct (Z.eq_dec m1 (2 ^ 53)) as [Hcarry|Hnocarry].
  - rewrite Hcarry, shr_fexp_exact_carry by lia. simpl shr_m.
    exists (2 ^ 52)%positive, (n + 1). split_and!; [lia| |].
    + change (2 ^ 52) with (Zpos (2 ^ 52)). cbv iota beta.
      replace (e + n + 1 <=? emax - prec) with true by (unfold emax, prec; lia).
      f_equal. lia.
    + rewrite Hcarry in Herr.
      assert (E : (inject_Z (Z.pos (2 ^ 52)) * inject_Z (2 ^ (n + 1))
                   == inject_Z (2 ^ 53) * inject_Z (2 ^ n))%Q).
      { rewrite <- !inject_Z_mult. rewrite Z.pow_add_r by lia.
        apply inject_Z_injective. change (Z.pos (2 ^ 52)) with (2 ^ 52). lia. }
      by rewrite E.
  - rewrite shr_fexp_exact_small by lia. simpl shr_m.
    destruct m1 as [|p|p] eqn:Hp; [lia| |lia].
    exists p, n. split_and!; [done| |done].
    replace (e + n <=? emax - prec) with true by (unfold emax, prec; lia).
    done.
Qed.

(** ** Powers of two over the rationals *)

Lemma pow2_pos e : (0 < pow2 e)%Q.
Proof. by apply Qpower_0_lt. Qed.

Lemma pow2_add a b : (pow2 (a + b) == pow2 a * pow2 b)%Q.
Proof. by apply Qpower_plus. Qed.

Lemma pow2_inject n : 0 <= n → (inject_Z (2 ^ n) == pow2 n)%Q.
Proof. intros Hn. by rewrite Zpower_Qpower. Qed.

Lemma pow2_lt_inv a b : (pow2 a < pow2 b)%Q → a < b.
Proof. intros H. by apply (Qpower_lt_compat_l_inv 2). Qed.

Lemma pow2_le a b : a <= b → (pow2 a <= pow2 b)%Q.
Proof. intros H. by apply Qpower_le_compat_l. Qed.

(** The magnitude of [m * 2^e] brackets the number of digits of [m]. *)
Lemma digits_value_bounds (m e : Z) :
  0 < m →
  (pow2 (Zdigits2 m - 1 + e) <= inject_Z m * pow2 e)%Q ∧
  (inject_Z m * pow2 e < pow2 (Zdigits2 m + e))%Q.
Proof.
  intros Hm. destruct (Zdigits2_bounds m Hm) as [Hlo Hhi].
  assert (Hd : 0 < Zdigits2 m) by (destruct m; simpl; lia).
  rewrite !pow2_add. pose proof (pow2_pos e) as He.
  rewrite Zle_Qle in Hlo. rewrite Zlt_Qlt in Hhi.
  rewrite pow2_inject in Hlo, Hhi by lia. split.
  - by apply Qmult_le_compat_r; [|apply Qlt_le_weak].
  - by apply Qmult_lt_compat_r.
Qed.

(** A bracket on the value gives a bracket on digits plus exponent. *)
Lemma exponent_range (m e lo hi : Z) (w : Q) :
  0 < m → (inject_Z m <= w)%Q → (w < inject_Z m + 1)%Q →
  (pow2 lo <= w * pow2 e)%Q → (w * pow2 e < pow2 hi)%Q →
  lo < Zdigits2 m + e ∧ Zdigits2 m + e <= hi.
Proof.
  intros Hm Hw1 Hw2 Hlo Hhi.
  destruct (digits_value_bounds m e Hm) as [Hd1 Hd2].
  pose proof (pow2_pos e) as He.
  destruct (Zdigits2_bounds m Hm) as [_ Hmhi].
  assert (Hd : 0 < Zdigits2 m) by (destruct m; simpl; lia).
  assert (Hsucc : (inject_Z m + 1 <= pow2 (Zdigits2 m))%Q).
  { rewrite <- pow2_inject by lia. change 1%Q with (inject_Z 1).
    rewrite <- inject_Z_plus, <- Zle_Qle. lia. }
  split.
  - apply pow2_lt_inv. eapply Qle_lt_trans; [exact Hlo|].
    rewrite pow2_add. apply Qmult_lt_compat_r; [done|]. lra.
  - assert (Zdigits2 m - 1 + e < hi); [|lia].
    apply pow2_lt_inv. eapply Qle_lt_trans; [exact Hd1|].
    eapply Qle_lt_trans; [|exact Hhi].
    apply Qmult_le_compat_r; [done|by apply Qlt_le_weak].
Qed.

(** ** Multiplication *)

(** What [Prim2SF_valid] says of the mantissa and exponent of a double. *)
Lemma bounded_inv (m : positive) (e : Z) :
  bounded prec emax m e = true →
  Zpos (digits2_pos m) <= 53 ∧ -1074 <= e <= 971 ∧
  (Zpos (digits2_pos m) = 53 ∨ e = -1074).
Proof.
  unfold bounded, canonical_mantissa, fexp, emin, prec, emax.
  intros [H1 H2]%andb_prop. apply Z.eqb_eq in H1. apply Z.leb_le in H2. lia.
Qed.

(** A product has as many digits as its factors together, or one less. *)
Lemma Zdigits2_mul (a b : positive) :
  Zpos (digits2_pos a) + Zpos (digits2_pos b) - 1 <= Zpos (digits2_pos (a * b))
  <= Zpos (digits2_pos a) + Zpos (digits2_pos b).
Proof.
  pose proof (digits2_pos_bounds a) as [Ha1 Ha2].
  pose proof (digits2_pos_bounds b) as [Hb1 Hb2].
  pose proof (digits2_pos_bounds (a * b)) as [Hc1 Hc2].
  set (da := Zpos (digits2_pos a)) in *. set (db := Zpos (digits2_pos b)) in *.
  set (dc := Zpos (digits2_pos (a * b))) in *.
  assert (Hda : 0 < da) by (unfold da; lia). assert (Hdb : 0 < db) by (unfold db; lia).
  assert (Hdc : 0 < dc) by (unfold dc; lia).
  rewrite Pos2Z.inj_mul in Hc1, Hc2.
  assert (Hlow : 2 ^ (da - 1 + (db - 1)) <= Zpos a * Zpos b)
    by (rewrite Z.pow_add_r by lia; nia).
  assert (Hhigh : Zpos a * Zpos b < 2 ^ (da + db))
    by (rewrite Z.pow_add_r by lia; nia).
  split.
  - destruct (Z.le_gt_cases (da + db - 1) dc) as [|Hgt]; [done|exfalso].
    assert (2 ^ dc <= 2 ^ (da - 1 + (db - 1))) by (apply Z.pow_le_mono_r; lia). lia.
  - destruct (Z.le_gt_cases dc (da + db)) as [|Hgt]; [done|exfalso].
    assert (2 ^ (da + db) <= 2 ^ (dc - 1)) by (apply Z.pow_le_mono_r; lia). lia.
Qed.

(** [SFmul] on finite doubles whose exact product is in the normal range. *)
Lemma SFmul_normal (sa sb : bool) (ma mb : positive) (ea eb : Z) :
  bounded prec emax ma ea = true → bounded prec emax mb eb = true →
  let w := inject_Z (Zpos (ma * mb)) in
  (pow2 (-1021) <= w * pow2 (ea + eb))%Q → (w * pow2 (ea + eb) < pow2 1023)%Q →
  ∃ (m' : positive) (n : Z),
    0 <= n ∧
    SFmul prec emax (S754_finite sa ma ea) (S754_finite sb mb eb)
    = S754_finite (xorb sa sb) m' (ea + eb + n) ∧
    (Qabs (inject_Z (Zpos m') * inject_Z (2 ^ n) - w) <= w * (1 # 2 ^ 53))%Q.
Proof.
  intros Ha Hb w Hlo Hhi. simpl SFmul.
  apply bounded_inv in Ha, Hb.
  pose proof (Zdigits2_mul ma mb) as Hd.
  assert (Hw : located w (Zpos (ma * mb)) loc_Exact) by (simpl; reflexivity).
  destruct (exponent_range (Zpos (ma * mb)) (ea + eb) (-1021) 1023 w) as [He1 He2];
    [lia|unfold w; lra|unfold w; lra|done|done|].
  simpl Zdigits2 in He1, He2.
  apply (binary_round_aux_normal _ _ _ _ w); [lia|done|simpl Zdigits2; lia..].
Qed.

(** ** Division *)

(** The location that [SFdiv_core_binary] computes from the remainder [k] of
    a division by [nb] is where the exact quotient lies. *)
Lemma new_location_located (nb k q : Z) :
  0 < nb → 0 <= k < nb →
  located (inject_Z q + inject_Z k / inject_Z nb) q (new_location nb k).
Proof.
  intros Hnb Hk.
  assert (HnbQ : (0 < inject_Z nb)%Q) by (change 0%Q with (inject_Z 0); by rewrite <- Zlt_Qlt).
  set (f := (inject_Z k / inject_Z nb)%Q).
  assert (Hf : (f * inject_Z nb == inject_Z k)%Q) by (unfold f; field; lra).
  assert (Hhalf_lt : 2 * k < nb → (f < 1 # 2)%Q).
  { intros H. apply (Qmult_lt_r _ _ (inject_Z nb)); [done|]. rewrite Hf.
    rewrite Zlt_Qlt, inject_Z_mult in H. change (inject_Z 2) with 2%Q in H. lra. }
  assert (Hhalf_gt : nb < 2 * k → (1 # 2 < f)%Q).
  { intros H. apply (Qmult_lt_r _ _ (inject_Z nb)); [done|]. rewrite Hf.
    rewrite Zlt_Qlt, inject_Z_mult in H. change (inject_Z 2) with 2%Q in H. lra. }
  assert (Hhalf_eq : nb = 2 * k → (f == 1 # 2)%Q).
  { intros H. apply (Qmult_inj_r _ _ (inject_Z nb)); [lra|]. rewrite Hf.
    rewrite H at 1. rewrite inject_Z_mult. change (inject_Z 2) with 2%Q. lra. }
  assert (Hpos : 0 < k → (0 < f)%Q).
  { intros H. apply (Qmult_lt_r _ _ (inject_Z nb)); [done|]. rewrite Hf.
    rewrite Zlt_Qlt in H. change (inject_Z 0) with 0%Q in H. lra. }
  assert (Hone : (f < 1)%Q).
  { apply (Qmult_lt_r _ _ (inject_Z nb)); [done|]. rewrite Hf.
    destruct Hk as [_ Hk]. rewrite Zlt_Qlt in Hk. lra. }
  unfold new_location. destruct (Z.even nb) eqn:Heven.
  - unfold new_location_even. destruct (Z.eqb_spec k 0) as [->|Hk0].
    + simpl. unfold f. change (inject_Z 0) with 0%Q. field. lra.
    + destruct (Z.compare_spec (2 * k) nb) as [Heq|Hlt|Hgt]; simpl.
      * rewrite (Hhalf_eq (eq_sym Heq)). reflexivity.
      * split; [|]; pose proof (Hhalf_lt Hlt); pose proof (Hpos ltac:(lia)); lra.
      * split; pose proof (Hhalf_gt Hgt); lra.
  - unfold new_location_odd. destruct (Z.eqb_spec k 0) as [->|Hk0].
    + simpl. unfold f. change (inject_Z 0) with 0%Q. field. lra.
    + assert (Hodd : nb ≠ 2 * k).
      { intros ->. rewrite Z.even_mul in Heven. done. }
      destruct (Z.compare_spec (2 * k + 1) nb) as [Heq|Hlt|Hgt]; simpl.
      * split; pose proof (Hhalf_lt ltac:(lia)); pose proof (Hpos ltac:(lia)); lra.
      * split; pose proof (Hhalf_lt ltac:(lia)); pose proof (Hpos ltac:(lia)); lra.
      * split; pose proof (Hhalf_gt ltac:(lia)); lra.
Qed.

(** A relative error bound is kept by scaling. *)
Lemma scale_error (a w p c : Q) :
  (0 < p)%Q → (Qabs (a - w) <= w * c)%Q → (Qabs (a * p - w * p) <= w * p * c)%Q.
Proof.
  intros Hp H. apply Qabs_Qle_condition in H. destruct H as [H1 H2].
  assert (E1 : ((- (w * c)) * p <= (a - w) * p)%Q) by (apply Qmult_le_compat_r; lra).
  assert (E2 : ((a - w) * p <= (w * c) * p)%Q) by (apply Qmult_le_compat_r; lra).
  apply Qabs_Qle_condition. split; lra.
Qed.

(** The product of two finite doubles, rounded: the value is within
    [2^-53] of the exact product, relatively, when that product is in the
    normal range. *)
Lemma SFmul_value (sa sb : bool) (ma mb : positive) (ea eb : Z) :
  bounded prec emax ma ea = true → bounded prec emax mb eb = true →
  let r := (inject_Z (Zpos ma) * pow2 ea * (inject_Z (Zpos mb) * pow2 eb))%Q in
  (pow2 (-1021) <= r)%Q → (r < pow2 1023)%Q →
  ∃ (m' : positive) (e' : Z),
    SFmul prec emax (S754_finite sa ma ea) (S754_finite sb mb eb)
    = S754_finite (xorb sa sb) m' e' ∧
    (Qabs (inject_Z (Zpos m') * pow2 e' - r) <= r * (1 # 2 ^ 53))%Q.
Proof.
  intros Ha Hb r Hlo Hhi.
  assert (Er : (r == inject_Z (Zpos (ma * mb)) * pow2 (ea + eb))%Q).
  { unfold r. rewrite Pos2Z.inj_mul, inject_Z_mult, pow2_add. ring. }
  rewrite Er in Hlo, Hhi.
  destruct (SFmul_normal sa sb ma mb ea eb Ha Hb Hlo Hhi) as (m' & n & Hn & Hmul & Herr).
  exists m', (ea + eb + n). split; [done|].
  rewrite Er. rewrite (pow2_add (ea + eb) n), <- (pow2_inject n Hn).
  apply (scale_error _ _ (pow2 (ea + eb))) in Herr; [|apply pow2_pos].
  assert (E : (inject_Z (Z.pos m') * (pow2 (ea + eb) * inject_Z (2 ^ n))
               - inject_Z (Z.pos (ma * mb)) * pow2 (ea + eb)
               == inject_Z (Z.pos m') * inject_Z (2 ^ n) * pow2 (ea + eb)
                  - inject_Z (Z.pos (ma * mb)) * pow2 (ea + eb))%Q) by ring.
  by rewrite E.
Qed.

(** The quotient of two finite doubles, rounded: the value is within
    [2^-53] of the exact quotient, relatively, when that quotient is in the
    normal range. *)
Lemma SFdiv_value (sa sb : bool) (ma mb : positive) (ea eb : Z) :
  let r := (inject_Z (Zpos ma) * pow2 ea / (inject_Z (Zpos mb) * pow2 eb))%Q in
  (pow2 (-1021) <= r)%Q → (r < pow2 1023)%Q →
  ∃ (m' : positive) (e' : Z),
    SFdiv prec emax (S754_finite sa ma ea) (S754_finite sb mb eb)
    = S754_finite (xorb sa sb) m' e' ∧
    (Qabs (inject_Z (Zpos m') * pow2 e' - r) <= r * (1 # 2 ^ 53))%Q.
Proof.
  intros r Hlo Hhi.
  pose proof (digits2_pos_bounds ma) as [Ha1 Ha2].
  pose proof (digits2_pos_bounds mb) as [Hb1 Hb2].
  set (d1 := Zpos (digits2_pos ma)) in *. set (d2 := Zpos (digits2_pos mb)) in *.
  assert (Hd1 : 0 < d1) by (unfold d1; lia). assert (Hd2 : 0 < d2) by (unfold d2; lia).
  set (E := d1 + ea - (d2 + eb)).
  assert (HmbQ : (0 < inject_Z (Zpos mb))%Q) by (change 0%Q with (inject_Z 0); by rewrite <- Zlt_Qlt).
  assert (HmaQ : (0 < inject_Z (Zpos ma))%Q) by (change 0%Q with (inject_Z 0); by rewrite <- Zlt_Qlt).
  pose proof (pow2_pos ea) as Hpea. pose proof (pow2_pos eb) as Hpeb.
  (* the quotient, as a ratio of mantissas at exponent [ea - eb] *)
  assert (Er : (r == inject_Z (Zpos ma) / inject_Z (Zpos mb) * pow2 (ea - eb))%Q).
  { unfold r. replace ea with (ea - eb + eb) at 1 by lia. rewrite pow2_add. field. split; lra. }
  (* the quotient is below [2^(E+1)], so [E] is in the normal range *)
  assert (HE : -1021 <= E).
  { assert (-1021 < E + 1); [|lia]. apply pow2_lt_inv.
    eapply Qle_lt_trans; [exact Hlo|]. rewrite Er.
    replace (E + 1) with (d1 - (d2 - 1) + (ea - eb)) by (unfold E; lia).
    rewrite (pow2_add (d1 - (d2 - 1))). apply Qmult_lt_compat_r; [apply pow2_pos|].
    apply Qlt_shift_div_r; [done|].
    assert (HaQ : (inject_Z (Zpos ma) < pow2 d1)%Q)
      by (rewrite <- pow2_inject by lia; by rewrite <- Zlt_Qlt).
    assert (HbQ : (pow2 (d2 - 1) <= inject_Z (Zpos mb))%Q)
      by (rewrite <- pow2_inject by lia; by rewrite <- Zle_Qle).
    eapply Qlt_le_trans; [exact HaQ|].
    replace d1 with (d1 - (d2 - 1) + (d2 - 1)) at 1 by lia. rewrite pow2_add.
    apply Qmult_le_l; [apply pow2_pos|done]. }
  simpl SFdiv. unfold SFdiv_core_binary.
  change (Zdigits2 (Z.pos ma)) with d1. change (Zdigits2 (Z.pos mb)) with d2.
  fold E. rewrite (fexp_normal E HE).
  set (e' := Z.min (E - 53) (ea - eb)). set (s := ea - eb - e').
  assert (Hs : 0 <= s) by (unfold s, e'; lia).
  assert (Hs' : 53 - d1 + d2 <= s) by (unfold s, e', E; lia).
  set (m' := match s with Z.pos _ => Z.shiftl (Z.pos ma) s | 0 => Z.pos ma | Z.neg _ => 0 end).
  assert (Hm' : m' = Zpos ma * 2 ^ s).
  { unfold m'. destruct s as [|p|p] eqn:Hp; [lia| |lia]. by rewrite Z.shiftl_mul_pow2. }
  clearbody m'.
  pose proof (Z_div_mod m' (Zpos mb) ltac:(lia)) as Hdiv.
  destruct (Z.div_eucl m' (Z.pos mb)) as [q rem]. destruct Hdiv as [Hq Hrem].
  (* the quotient has at least 53 digits *)
  assert (Hq52 : 2 ^ 52 <= q).
  { assert (Hbig : 2 ^ 52 * Zpos mb <= m').
    { rewrite Hm'. etransitivity; [apply Z.mul_le_mono_nonneg_l; [lia|apply Z.lt_le_incl, Hb2]|].
      rewrite <- Z.pow_add_r by lia.
      etransitivity; [apply (Z.pow_le_mono_r 2 (52 + d2) (d1 - 1 + s)); lia|].
      rewrite Z.pow_add_r by lia. apply Z.mul_le_mono_nonneg_r; [|done].
      apply Z.pow_nonneg. lia. }
    nia. }
  set (w := (inject_Z q + inject_Z rem / inject_Z (Zpos mb))%Q).
  assert (Hw : located w q (new_location (Zpos mb) rem)) by (by apply new_location_located).
  assert (Ew : (w * pow2 e' == r)%Q).
  { unfold w. rewrite Er.
    assert (Es : (pow2 (ea - eb) == inject_Z (2 ^ s) * pow2 e')%Q).
    { rewrite pow2_inject by done. rewrite <- pow2_add. unfold s. f_equiv. lia. }
    rewrite Es.
    assert (Em : (inject_Z (Zpos ma) * inject_Z (2 ^ s)
                  == inject_Z (Zpos mb) * inject_Z q + inject_Z rem)%Q).
    { rewrite <- !inject_Z_mult, <- inject_Z_plus. by rewrite <- Hm', Hq. }
    assert (E1 : (inject_Z (Z.pos ma) / inject_Z (Z.pos mb) * (inject_Z (2 ^ s) * pow2 e')
                  == inject_Z (Zpos ma) * inject_Z (2 ^ s) / inject_Z (Z.pos mb) * pow2 e')%Q)
      by (field; lra).
    rewrite E1, Em. field. lra. }
  assert (Hqpos : 0 < q) by lia.
  pose proof (located_bounds _ _ _ Hw) as [Hwq1 Hwq2].
  rewrite <- Ew in Hlo, Hhi.
  destruct (exponent_range q e' (-1021) 1023 w Hqpos Hwq1 Hwq2 Hlo Hhi) as [He1 He2].
  assert (Hdq : 53 <= Zdigits2 q).
  { destruct (Z.le_gt_cases 53 (Zdigits2 q)) as [|Hlt]; [done|exfalso].
    destruct (Zdigits2_bounds q Hqpos) as [_ Hub].
    assert (2 ^ Zdigits2 q <= 2 ^ 52) by (apply Z.pow_le_mono_r; lia). lia. }
  destruct (binary_round_aux_normal (xorb sa sb) q e' _ w Hqpos Hw Hdq) as
    (m'' & n & Hn & Hround & Herr); [lia|lia|].
  exists m'', (e' + n). split; [done|].
  rewrite <- Ew. rewrite (pow2_add e' n), <- (pow2_inject n Hn).
  apply (scale_error _ _ (pow2 e')) in Herr; [|apply pow2_pos].
  assert (E2 : (inject_Z (Z.pos m'') * (pow2 e' * inject_Z (2 ^ n)) - w * pow2 e'
                == inject_Z (Z.pos m'') * inject_Z (2 ^ n) * pow2 e' - w * pow2 e')%Q) by ring.
  by rewrite E2.
Qed.

Lemma magnitude_pos m e : (0 < magnitude m e)%Q.
Proof.
  unfold magnitude. apply Qmult_lt_0_compat; [|apply pow2_pos].
  change 0%Q with (inject_Z 0). by rewrite <- Zlt_Qlt.
Qed.

Lemma value_Prim2SF (x : float) : Binary64.value x = Binary64.SFvalue (Prim2SF x).
Proof. reflexivity. Qed.

Lemma SFvalue_finite s m e :
  (Binary64.SFvalue (S754_finite s m e) == sgn s * magnitude m e)%Q.
Proof.
  unfold magnitude, pow2, sgn. destruct s; simpl Binary64.SFvalue; simpl cond_Zopp; [|ring].
  change (Z.neg m) with (- Zpos m). rewrite inject_Z_opp. ring.
Qed.

Lemma sgn_xorb a b : (sgn (xorb a b) == sgn a * sgn b)%Q.
Proof. by destruct a, b. Qed.

Lemma Qabs_sgn s x : (Qabs (sgn s * x) == Qabs x)%Q.
Proof.
  destruct s; unfold sgn.
  - rewrite <- (Qabs_opp x). apply Qabs_wd. ring.
  - apply Qabs_wd. ring.
Qed.

Lemma sgn_nonzero s : ¬ (sgn s == 0)%Q.
Proof. by destruct s. Qed.

Lemma Qabs_small_zero : (Qabs 0 < pow2 (-1021))%Q.
Proof. apply pow2_pos. Qed.

(** The standard model of binary64 multiplication in the normal range. *)
Lemma mul_error (a b : float) :
  let r := (Binary64.value a * Binary64.value b)%Q in
  (pow2 (-1021) <= Qabs r)%Q → (Qabs r < pow2 1023)%Q →
  (Qabs (Binary64.value (a * b) - r) <= Qabs r * (1 # 2 ^ 53))%Q.
Proof.
  intros r Hlo Hhi. unfold r in *. clear r.
  rewrite !value_Prim2SF in *. rewrite mul_spec. unfold SF64mul.
  pose proof (Prim2SF_valid a) as Ha. pose proof (Prim2SF_valid b) as Hb.
  destruct (Prim2SF a) as [sa|sa| |sa ma ea];
    try (exfalso; simpl Binary64.SFvalue in Hlo; rewrite Qmult_0_l in Hlo;
         pose proof Qabs_small_zero; lra).
  destruct (Prim2SF b) as [sb|sb| |sb mb eb];
    try (exfalso; simpl Binary64.SFvalue in Hlo; rewrite Qmult_0_r in Hlo;
         pose proof Qabs_small_zero; lra).
  simpl valid_binary in Ha, Hb.
  pose proof (magnitude_pos ma ea) as HA. pose proof (magnitude_pos mb eb) as HB.
  assert (HAB : (0 < magnitude ma ea * magnitude mb eb)%Q) by (by apply Qmult_lt_0_compat).
  assert (Er : (Binary64.SFvalue (S754_finite sa ma ea) * Binary64.SFvalue (S754_finite sb mb eb)
                == sgn (xorb sa sb) * (magnitude ma ea * magnitude mb eb))%Q).
  { rewrite !SFvalue_finite, sgn_xorb. ring. }
  rewrite Er in *. rewrite Qabs_sgn in *.
  rewrite (Qabs_pos (magnitude ma ea * magnitude mb eb)) in * by lra.
  destruct (SFmul_value sa sb ma mb ea eb Ha Hb Hlo Hhi) as (m' & e' & -> & Herr).
  fold (magnitude ma ea) (magnitude mb eb) (magnitude m' e') in Herr.
  rewrite SFvalue_finite.
  eapply Qle_trans; [|exact Herr]. apply Qle_lteq. right.
  rewrite <- (Qabs_sgn (xorb sa sb) (magnitude m' e' - _)). apply Qabs_wd. ring.
Qed.

(** The standard model of binary64 division in the normal range. *)
Lemma div_error (a b : float) :
  let r := (Binary64.value a / Binary64.value b)%Q in
  (pow2 (-1021) <= Qabs r)%Q → (Qabs r < pow2 1023)%Q →
  (Qabs (Binary64.value (a / b) - r) <= Qabs r * (1 # 2 ^ 53))%Q.
Proof.
  intros r Hlo Hhi. unfold r in *. clear r.
  rewrite !value_Prim2SF in *. rewrite div_spec. unfold SF64div.
  destruct (Prim2SF a) as [sa|sa| |sa ma ea];
    try (exfalso; simpl Binary64.SFvalue in Hlo; unfold Qdiv in Hlo; rewrite Qmult_0_l in Hlo;
         pose proof Qabs_small_zero; lra).
  destruct (Prim2SF b) as [sb|sb| |sb mb eb];
    try (exfalso; simpl Binary64.SFvalue in Hlo; unfold Qdiv in Hlo; simpl Qinv in Hlo;
         rewrite Qmult_0_r in Hlo; pose proof Qabs_small_zero; lra).
  pose proof (magnitude_pos ma ea) as HA. pose proof (magnitude_pos mb eb) as HB.
  assert (HAB : (0 < magnitude ma ea / magnitude mb eb)%Q).
  { apply Qlt_shift_div_l; lra. }
  pose proof (sgn_nonzero sb) as Hsb.
  assert (Er : (Binary64.SFvalue (S754_finite sa ma ea) / Binary64.SFvalue (S754_finite sb mb eb)
                == sgn (xorb sa sb) * (magnitude ma ea / magnitude mb eb))%Q).
  { rewrite !SFvalue_finite, sgn_xorb. destruct sb; unfold sgn; field; lra. }
  rewrite Er in *. rewrite Qabs_sgn in *.
  rewrite (Qabs_pos (magnitude ma ea / magnitude mb eb)) in * by lra.
  destruct (SFdiv_value sa sb ma mb ea eb Hlo Hhi) as (m' & e' & -> & Herr).
  fold (magnitude ma ea) (magnitude mb eb) (magnitude m' e') in Herr.
  rewrite SFvalue_finite.
  eapply Qle_trans; [|exact Herr]. apply Qle_lteq. right.
  rewrite <- (Qabs_sgn (xorb sa sb) (magnitude m' e' - _)). apply Qabs_wd. ring.
Qed.

(** ** Scaling there and back *)

(** Pure error analysis: two operations with relative error [u] each. *)
Lemma two_steps_mul_div (X K Y Z u : Q) :
  (0 <= u)%Q → (u <= 1)%Q → ¬ (K == 0)%Q →
  (Qabs (Y - X * K) <= Qabs (X * K) * u)%Q →
  (Qabs (Z - Y / K) <= Qabs (Y / K) * u)%Q →
  (Qabs (Z - X) <= Qabs X * (4 * u))%Q.
Proof.
  intros Hu0 Hu1 HK H1 H2.
  assert (HKabs : (0 < Qabs K)%Q).
  { destruct (Qlt_le_dec 0 (Qabs K)) as [|Hle]; [done|exfalso].
    pose proof (Qabs_nonneg K). apply HK.
    assert (E : (Qabs K == 0)%Q) by lra.
    revert E. apply Qabs_case; intros; lra. }
  assert (ER : (Y / K - X == (Y - X * K) / K)%Q) by (field; done).
  assert (HRX : (Qabs (Y / K - X) <= Qabs X * u)%Q).
  { rewrite ER. unfold Qdiv at 1. rewrite Qabs_Qmult, Qabs_Qinv.
    rewrite Qabs_Qmult in H1.
    apply (Qmult_le_r _ _ (Qabs K)); [done|].
    assert (E : (Qabs (Y - X * K) * / Qabs K * Qabs K == Qabs (Y - X * K))%Q) by (field; lra).
    rewrite E. lra. }
  pose proof (Qabs_triangle (Y / K - X) X) as HT1.
  assert (E1 : (Y / K - X + X == Y / K)%Q) by ring. rewrite E1 in HT1.
  pose proof (Qabs_triangle (Z - Y / K) (Y / K - X)) as HT2.
  assert (E2 : (Z - Y / K + (Y / K - X) == Z - X)%Q) by ring. rewrite E2 in HT2.
  pose proof (Qabs_nonneg X) as HX.
  revert H2 HRX HT1 HT2 HX.
  generalize (Qabs (Z - X)) (Qabs (Z - Y / K)) (Qabs (Y / K - X)) (Qabs (Y / K)) (Qabs X).
  intros dZX dZR dRX aR aX H2 HRX HT1 HT2 HX.
  assert (HaR : (aR * u <= (aX + aX * u) * u)%Q) by (apply Qmult_le_compat_r; lra).
  assert (HaXu : (0 <= aX * u)%Q) by (by apply Qmult_le_0_compat).
  assert (Hsq : (u * (aX * u) <= 1 * (aX * u))%Q) by (apply Qmult_le_compat_r; lra).
  lra.
Qed.

Lemma Qabs_positive (K : Q) : ¬ (K == 0)%Q → (0 < Qabs K)%Q.
Proof.
  intros HK. destruct (Qlt_le_dec 0 (Qabs K)) as [|Hle]; [done|exfalso].
  pose proof (Qabs_nonneg K). apply HK.
  assert (E : (Qabs K == 0)%Q) by lra.
  revert E. apply Qabs_case; intros; lra.
Qed.

Lemma two_steps_div_mul (X K Y Z u : Q) :
  (0 <= u)%Q → (u <= 1)%Q → ¬ (K == 0)%Q →
  (Qabs (Y - X / K) <= Qabs (X / K) * u)%Q →
  (Qabs (Z - Y * K) <= Qabs (Y * K) * u)%Q →
  (Qabs (Z - X) <= Qabs X * (4 * u))%Q.
Proof.
  intros Hu0 Hu1 HK H1 H2.
  pose proof (Qabs_positive K HK) as HKabs.
  assert (ER : (Y * K - X == (Y - X / K) * K)%Q) by (field; done).
  assert (HRX : (Qabs (Y * K - X) <= Qabs X * u)%Q).
  { rewrite ER, Qabs_Qmult.
    unfold Qdiv in H1 at 2. rewrite Qabs_Qmult, Qabs_Qinv in H1.
    assert (E : (Qabs X * / Qabs K * u * Qabs K == Qabs X * u)%Q) by (field; lra).
    rewrite <- E. apply Qmult_le_compat_r; [done|lra]. }
  pose proof (Qabs_triangle (Y * K - X) X) as HT1.
  assert (E1 : (Y * K - X + X == Y * K)%Q) by ring. rewrite E1 in HT1.
  pose proof (Qabs_triangle (Z - Y * K) (Y * K - X)) as HT2.
  assert (E2 : (Z - Y * K + (Y * K - X) == Z - X)%Q) by ring. rewrite E2 in HT2.
  pose proof (Qabs_nonneg X) as HX.
  revert H2 HRX HT1 HT2 HX.
  generalize (Qabs (Z - X)) (Qabs (Z - Y * K)) (Qabs (Y * K - X)) (Qabs (Y * K)) (Qabs X).
  intros dZX dZR dRX aR aX H2 HRX HT1 HT2 HX.
  assert (HaR : (aR * u <= (aX + aX * u) * u)%Q) by (apply Qmult_le_compat_r; lra).
  assert (HaXu : (0 <= aX * u)%Q) by (by apply Qmult_le_0_compat).
  assert (Hsq : (u * (aX * u) <= 1 * (aX * u))%Q) by (apply Qmult_le_compat_r; lra).
  lra.
Qed.

(** The intermediate result of a round trip, brought back exactly, is within
    [u] of the input. *)
Lemma back_mul_div (X K Y u : Q) :
  ¬ (K == 0)%Q →
  (Qabs (Y - X * K) <= Qabs (X * K) * u)%Q →
  (Qabs (Y / K - X) <= Qabs X * u)%Q.
Proof.
  intros HK H1. pose proof (Qabs_positive K HK) as HKabs.
  assert (ER : (Y / K - X == (Y - X * K) / K)%Q) by (field; done).
  rewrite ER. unfold Qdiv at 1. rewrite Qabs_Qmult, Qabs_Qinv.
  rewrite Qabs_Qmult in H1.
  apply (Qmult_le_r _ _ (Qabs K)); [done|].
  assert (E : (Qabs (Y - X * K) * / Qabs K * Qabs K == Qabs (Y - X * K))%Q) by (field; lra).
  rewrite E. lra.
Qed.

Lemma back_div_mul (X K Y u : Q) :
  ¬ (K == 0)%Q →
  (Qabs (Y - X / K) <= Qabs (X / K) * u)%Q →
  (Qabs (Y * K - X) <= Qabs X * u)%Q.
Proof.
  intros HK H1. pose proof (Qabs_positive K HK) as HKabs.
  assert (ER : (Y * K - X == (Y - X / K) * K)%Q) by (field; done).
  rewrite ER, Qabs_Qmult.
  unfold Qdiv in H1 at 2. rewrite Qabs_Qmult, Qabs_Qinv in H1.
  assert (E : (Qabs X * / Qabs K * u * Qabs K == Qabs X * u)%Q) by (field; lra).
  rewrite <- E. apply Qmult_le_compat_r; [done|lra].
Qed.

(** A value within relative distance [roundoff] of [X] has between half
    and twice its magnitude. *)
Lemma near_magnitude (X R : Q) :
  (Qabs (R - X) <= Qabs X * roundoff)%Q →
  (Qabs X * (1 # 2) <= Qabs R)%Q ∧ (Qabs R <= Qabs X * 2)%Q.
Proof.
  intros H. pose proof (Qabs_nonneg X) as HX.
  pose proof (Qabs_triangle (R - X) X) as HT1.
  assert (E1 : (R - X + X == R)%Q) by ring. rewrite E1 in HT1.
  pose proof (Qabs_triangle_reverse X R) as HT2. rewrite Qabs_Qminus in HT2.
  revert H HT1 HT2 HX. generalize (Qabs (R - X)) (Qabs R) (Qabs X).
  intros d aR aX H HT1 HT2 HX. unfold roundoff in H.
  change (1 # 2 ^ 53)%Q with (1 # 9007199254740992)%Q in H. split; lra.
Qed.

Lemma pow2_lt a b : a < b → (pow2 a < pow2 b)%Q.
Proof. intros H. by apply Qpower_lt_compat_l. Qed.

Lemma pow2_half e : (pow2 e * (1 # 2) == pow2 (e - 1))%Q.
Proof.
  replace (e - 1) with (e + -1) by lia. rewrite pow2_add. reflexivity.
Qed.

Lemma pow2_double e : (pow2 e * 2 == pow2 (e + 1))%Q.
Proof. rewrite pow2_add. reflexivity. Qed.

(** Moderate magnitudes are in the normal range of binary64. *)
Lemma moderate_normal lo hi x :
  -1021 <= lo → hi < 1023 → moderate lo hi x →
  (pow2 (-1021) <= Qabs x)%Q ∧ (Qabs x < pow2 1023)%Q.
Proof.
  intros Hlo Hhi [H1 H2]. split.
  - eapply Qle_trans; [|exact H1]. by apply pow2_le.
  - eapply Qle_lt_trans; [exact H2|]. by apply pow2_lt.
Qed.

Lemma moderate_mul a b c d x k :
  moderate a b x → moderate c d k → moderate (a + c) (b + d) (x * k).
Proof.
  intros [Hx1 Hx2] [Hk1 Hk2]. unfold moderate. rewrite Qabs_Qmult, !pow2_add.
  pose proof (pow2_pos a). pose proof (pow2_pos c).
  split; apply Qmult_le_compat_nonneg; split; lra.
Qed.

Lemma moderate_nonzero a b x : moderate a b x → ¬ (x == 0)%Q.
Proof.
  intros [H1 _] E. rewrite E in H1. pose proof (pow2_pos a).
  change (Qabs 0) with 0%Q in H1. lra.
Qed.

Lemma moderate_inv a b k : moderate a b k → moderate (- b) (- a) (/ k).
Proof.
  intros [H1 H2]. unfold moderate. rewrite Qabs_Qinv.
  pose proof (pow2_pos a). pose proof (pow2_pos b).
  assert (Ea : (pow2 (- a) == / pow2 a)%Q) by apply Qpower_opp.
  assert (Eb : (pow2 (- b) == / pow2 b)%Q) by apply Qpower_opp.
  rewrite Ea, Eb. split.
  - apply Qle_shift_inv_l; [lra|]. 
    assert (E : (/ pow2 b * Qabs k == Qabs k / pow2 b)%Q) by (field; lra).
    rewrite E. apply Qle_shift_div_r; lra.
  - apply Qle_shift_inv_r; [lra|].
    assert (E : (/ pow2 a * Qabs k == Qabs k / pow2 a)%Q) by (field; lra).
    rewrite E. apply Qle_shift_div_l; lra.
Qed.

Lemma moderate_near a b X R :
  moderate a b X → (Qabs (R - X) <= Qabs X * roundoff)%Q → moderate (a - 1) (b + 1) R.
Proof.
  intros [H1 H2] [H3 H4]%near_magnitude. unfold moderate.
  rewrite <- pow2_half, <- pow2_double. split; lra.
Qed.

(** Four units of roundoff are [2^-51]. *)
Lemma roundoff_range : (0 <= roundoff)%Q ∧ (roundoff <= 1)%Q ∧ (4 * roundoff == 1 # 2 ^ 51)%Q.
Proof. by vm_compute. Qed.

(** Multiplying by a factor and dividing by it again, in binary64. *)
Lemma there_and_back_mul (x k : float) :
  moderate (-1000) 1000 (Binary64.value x) →
  moderate (-10) 10 (Binary64.value k) →
  (Qabs (Binary64.value (x * k / k) - Binary64.value x)
   <= Qabs (Binary64.value x) * (1 # 2 ^ 51))%Q.
Proof.
  intros Hx Hk. destruct roundoff_range as (Hu0 & Hu1 & Hu4).
  pose proof (moderate_nonzero _ _ _ Hk) as HK.
  pose proof (moderate_mul _ _ _ _ _ _ Hx Hk) as Hxk.
  destruct (moderate_normal (-1000 + -10) (1000 + 10) _ ltac:(lia) ltac:(lia) Hxk)
    as [Hn1 Hn2].
  pose proof (mul_error x k Hn1 Hn2) as H1. fold roundoff in H1.
  pose proof (back_mul_div _ _ _ _ HK H1) as Hback.
  pose proof (moderate_near _ _ _ _ Hx Hback) as Hyk.
  destruct (moderate_normal (-1000 - 1) (1000 + 1) _ ltac:(lia) ltac:(lia) Hyk)
    as [Hn3 Hn4].
  pose proof (div_error (x * k) k Hn3 Hn4) as H2. fold roundoff in H2.
  rewrite <- Hu4. by apply (two_steps_mul_div _ (Binary64.value k) (Binary64.value (x * k))).
Qed.

(** Dividing by a factor and multiplying by it again, in binary64. *)
Lemma there_and_back_div (x k : float) :
  moderate (-1000) 1000 (Binary64.value x) →
  moderate (-10) 10 (Binary64.value k) →
  (Qabs (Binary64.value (x / k * k) - Binary64.value x)
   <= Qabs (Binary64.value x) * (1 # 2 ^ 51))%Q.
Proof.
  intros Hx Hk. destruct roundoff_range as (Hu0 & Hu1 & Hu4).
  pose proof (moderate_nonzero _ _ _ Hk) as HK.
  pose proof (moderate_mul _ _ _ _ _ _ Hx (moderate_inv _ _ _ Hk)) as Hxk.
  fold (Binary64.value x / Binary64.value k)%Q in Hxk.
  destruct (moderate_normal (-1000 + - (10)) (1000 + - (-10)) _ ltac:(lia) ltac:(lia) Hxk)
    as [Hn1 Hn2].
  pose proof (div_error x k Hn1 Hn2) as H1. fold roundoff in H1.
  pose proof (back_div_mul _ _ _ _ HK H1) as Hback.
  pose proof (moderate_near _ _ _ _ Hx Hback) as Hyk.
  destruct (moderate_normal (-1000 - 1) (1000 + 1) _ ltac:(lia) ltac:(lia) Hyk)
    as [Hn3 Hn4].
  pose proof (mul_error (x / k) k Hn3 Hn4) as H2. fold roundoff in H2.
  rewrite <- Hu4. by apply (two_steps_div_mul _ (Binary64.value k) (Binary64.value (x / k))).
Qed.

(** The constants of the specification are moderate. *)
Lemma literal_moderate_3_28084 : moderate (-10) 10 (Binary64.value (literal 328084 5)).
Proof. unfold moderate. by vm_compute. Qed.

Lemma literal_moderate_2_20462 : moderate (-10) 10 (Binary64.value (literal 220462 5)).
Proof. unfold moderate. by vm_compute. Qed.

(** A round trip through one pair of formulas is one of the two shapes
    above; the constant of the formulas is kept as it is written. *)
Ltac scaled_there_and_back :=
  unfold closeTo;
  cbn [metersToFeet feetToMeters centimetersToInches inchesToCentimeters
       kilogramsToPounds poundsToKilograms gramsToOunces ouncesToGrams
       Formulas.lengthConverter Formulas.weightConverter];
  repeat match goal with
         | |- context [Binary64.ofDecimal false ?n ?f] =>
             change (Binary64.ofDecimal false n f) with (literal (num:=float) n f)
         end;
  repeat match goal with
         | H : moderate _ _ (Binary64.value (literal ?n ?f)) |- _ =>
             generalize dependent (literal (num:=float) n f); intros ? ?
         end;
  change (@num_div float Binary64.number) with PrimFloat.div;
  change (@num_mul float Binary64.number) with PrimFloat.mul;
  lazymatch goal with
  | |- context [Binary64.value (?a * ?b / ?b)%float] => apply (there_and_back_mul a b)
  | |- context [Binary64.value (?a / ?b * ?b)%float] => apply (there_and_back_div a b)
  end.

(** Lengths in binary64: what the dispatch converts comes back from the
    reverse dispatch within [2^-51], relatively. *)
Lemma binary64_length_round_trip (k : float) (from to : string) (x y : float) :
  moderate (-10) 10 (Binary64.value k) →
  moderate (-1000) 1000 (Binary64.value x) →
  Selector.convertLength (Formulas.lengthConverter k) from to x = Ok y →
  ∃ z, Selector.convertLength (Formulas.lengthConverter k) to from y = Ok z ∧ closeTo x z.
Proof.
  intros Hk Hx H. pose proof literal_moderate_3_28084 as Hc.
  unfold Selector.convertLength, Selector.convertFromMeters, Selector.convertFromFeet,
    Selector.convertFromCentimeters, Selector.convertFromInches,
    Selector.notAvailable in *.
  split_dispatch H; try discriminate H; injection H as <-; labels_to_eq.
  all: rewrite_units; simpl Selector.oneOf; cbv iota; eexists; (split; [reflexivity|]).
  all: by scaled_there_and_back.
Qed.

(** Weights in binary64, likewise. *)
Lemma binary64_weight_round_trip (k : float) (from to : string) (x y : float) :
  moderate (-10) 10 (Binary64.value k) →
  moderate (-1000) 1000 (Binary64.value x) →
  Selector.convertWeight (Formulas.weightConverter k) from to x = Ok y →
  ∃ z, Selector.convertWeight (Formulas.weightConverter k) to from y = Ok z ∧ closeTo x z.
Proof.
  intros Hk Hx H. pose proof literal_moderate_2_20462 as Hc.
  unfold Selector.convertWeight, Selector.convertFromKilograms,
    Selector.convertFromPounds, Selector.convertFromGrams,
    Selector.convertFromOunces, Selector.notAvailable in *.
  split_dispatch H; try discriminate H; injection H as <-; labels_to_eq.
  all: rewrite_units; simpl Selector.oneOf; cbv iota; eexists; (split; [reflexivity|]).
  all: by scaled_there_and_back.
Qed.

End Rounding64.

(** C5, as amended.  A conversion followed by the reverse conversion gives
    the input back, exactly over the exact rationals and within a relative
    error of [2^-51] in binary64.  Over the rationals: for lengths and for
    weights, whenever the dispatch converts [x] from one unit to another the
    dispatch converts the result back to [x], with the specification's
    constants for meters and feet and for kilograms and pounds and with any
    non-zero factor for the two pairs whose constants the specification
    leaves open; and a temperature that one selector converts is returned by
    the other.  In binary64: for lengths and for weights, when the magnitude
    of [x] lies between [2^-1000] and [2^1000] and the two open factors have
    magnitudes between [2^-10] and [2^10], the reverse conversion returns a
    double [z] with [|z - x| <= 2^-51 * |x|].  The bound on [x] is needed:
    see [binary64_round_trip_overflow]. *)
Theorem unit_round_trip (from to : string) :
  (∀ inchesPerCentimeter ouncesPerGram x y : Qc,
     inchesPerCentimeter ≠ 0%Qc →
     ouncesPerGram ≠ 0%Qc →
     (Selector.convertLength (Formulas.lengthConverter inchesPerCentimeter) from to x = Ok y →
      Selector.convertLength (Formulas.lengthConverter inchesPerCentimeter) to from y = Ok x) ∧
     (Selector.convertWeight (Formulas.weightConverter ouncesPerGram) from to x = Ok y →
      Selector.convertWeight (Formulas.weightConverter ouncesPerGram) to from y = Ok x) ∧
     (Temperature.convertFromCelsius to x = Ok y →
      Temperature.convertFromFahrenheit "celsius" y = Ok x) ∧
     (Temperature.convertFromFahrenheit to x = Ok y →
      Temperature.convertFromCelsius "fahrenheit" y = Ok x)) ∧
  (∀ inchesPerCentimeter ouncesPerGram x y : float,
     moderate (-10) 10 (Binary64.value inchesPerCentimeter) →
     moderate (-10) 10 (Binary64.value ouncesPerGram) →
     moderate (-1000) 1000 (Binary64.value x) →
     (Selector.convertLength (Formulas.lengthConverter inchesPerCentimeter) from to x = Ok y →
      ∃ z, Selector.convertLength (Formulas.lengthConverter inchesPerCentimeter) to from y = Ok z
           ∧ closeTo x z) ∧
     (Selector.convertWeight (Formulas.weightConverter ouncesPerGram) from to x = Ok y →
      ∃ z, Selector.convertWeight (Formulas.weightConverter ouncesPerGram) to from y = Ok z
           ∧ closeTo x z)).
Proof.
  split.
  - intros inchesPerCentimeter ouncesPerGram x y Hl Hw. split_and!.
    + by apply ExactFacts.length_round_trip.
    + by apply ExactFacts.weight_round_trip.
    + apply ExactFacts.celsius_round_trip.
    + apply ExactFacts.fahrenheit_round_trip.
  - intros inchesPerCentimeter ouncesPerGram x y Hl Hw Hx. split.
    + by apply Rounding64.binary64_length_round_trip.
    + by apply Rounding64.binary64_weight_round_trip.
Qed.


(** ** Binary64 *)

(** The literals of the formulas are the doubles that the engine reads. *)
Example literal_3_28084 : (literal 328084 5 : float) = 0x1.a3f290abb44e5p+1%float.
Proof. reflexivity. Qed.

Example literal_64_4 : (literal 644 1 : float) = 0x1.019999999999ap+6%float.
Proof. reflexivity. Qed.

(** In binary64 a tenth of a meter does not come back from feet as it went,
    but one unit in the last place away: the round trip is exact in the
    rationals only. *)
Example binary64_round_trip_inexact :
  let lengths := Formulas.lengthConverter (literal 393701 6 : float) in
  Selector.convertLength lengths "m" "ft" (literal 1 1)
  = Ok 0x1.4ff540895d0b8p-2%float ∧
  Selector.convertLength lengths "ft" "m" 0x1.4ff540895d0b8p-2%float
  = Ok 0x1.999999999999bp-4%float ∧
  (literal 1 1 : float) = 0x1.999999999999ap-4%float.
Proof. vm_compute. by split_and!. Qed.

(** C4. The temperature formulas are [x*9/5+32] and [(x-32)*5/9]; in
    binary64, as in the rationals, 18 degrees Celsius are exactly 64.4 degrees
    Fahrenheit, -25 are exactly -13, and 68 degrees Fahrenheit are exactly 20
    degrees Celsius. *)
Theorem temperature_formulas :
  (∀ (num : Type) (N : Number num) (x : num),
     Formulas.celsiusToFahrenheit x = (x * literal 9 0 / literal 5 0 + literal 32 0)%js ∧
     Formulas.fahrenheitToCelsius x = ((x - literal 32 0) * literal 5 0 / literal 9 0)%js) ∧
  (Temperature.convertFromCelsius "fahrenheit" (literal 18 0 : float) = Ok (literal 644 1) ∧
   Temperature.convertFromCelsius "fahrenheit" (negLiteral 25 0 : float) = Ok (negLiteral 13 0) ∧
   Temperature.convertFromFahrenheit "celsius" (literal 68 0 : float) = Ok (literal 20 0)) ∧
  (Temperature.convertFromCelsius "fahrenheit" (literal 18 0 : Qc) = Ok (literal 644 1) ∧
   Temperature.convertFromCelsius "fahrenheit" (negLiteral 25 0 : Qc) = Ok (negLiteral 13 0) ∧
   Temperature.convertFromFahrenheit "celsius" (literal 68 0 : Qc) = Ok (literal 20 0)).
Proof.
  split_and!; try (by intros; split); try (vm_compute; reflexivity).
  all: unfold Temperature.convertFromCelsius, Temperature.convertFromFahrenheit,
         InputValidator.validateCelsiusRange, InputValidator.validateFahrenheitRange.
  all: match goal with
       | |- context [if ?b then Throw _ else Ok ()] =>
           replace b with false by (vm_compute; reflexivity)
       end; cbn [mbind result_bind].
  all: match goal with
       | |- context [Selector.oneOf ?s ?l] => change (Selector.oneOf s l) with true
       end; cbv iota; f_equal; apply Qc_is_canon; vm_compute; reflexivity.
Qed.

(** ** The statements at concrete inputs *)

(** The entry points on the sample instance, in binary64: one call for each
    outcome that C1 orders. *)
Example convertLength_outcomes :
  let convertLength := Facade.convertLength (Sample.system (num:=float)) in
  convertLength (VNum 5%float) (VStr "ft") (VStr "two")
  = Throw (TypeError "Input must be a string") ∧
  convertLength (VStr "m") (VStr "ft") (VStr "two")
  = Throw (TypeError "Input must be a number") ∧
  convertLength (VStr "m") (VStr "ft") (VNum nan)
  = Throw (TypeError "Input must be a number") ∧
  convertLength (VStr "m") (VStr "in") (VNum (-2)%float)
  = Throw (ValueError "Number must be positive") ∧
  convertLength (VStr "m") (VStr "in") (VNum 2%float)
  = Throw (Error "Conversion not available") ∧
  convertLength (VStr "Meters") (VStr "FT") (VNum 2%float)
  = Ok (literal 656168 5).
Proof. vm_compute. by split_and!. Qed.

Lemma convertMultipleValues_elementwise_witness :
  isCategory "LENGTH" Length ∧
  isOk (Facade.convertMultipleValues (Sample.system (num:=float))
          (VStr "LENGTH") (VStr "cm") (VStr "in")
          (VArray [VNum 1%float; VNum 70%float])) = true.
Proof.
  split; [reflexivity|].
  apply (convertMultipleValues_elementwise Sample.system "LENGTH" Length
           (VStr "cm") (VStr "in") [VNum 1%float; VNum 70%float] eq_refl).
  intros v Hv.
  apply elem_of_cons in Hv as [->|Hv]; [reflexivity|].
  apply elem_of_cons in Hv as [->|Hv]; [reflexivity|].
  by apply elem_of_nil in Hv.
Defined.

Lemma convertMultipleValues_empty_witness :
  isCategory "Volume" Volume ∧
  Facade.convertMultipleValues (Sample.system (num:=float))
    (VStr "Volume") VNull (VNum 3%float) (VArray [])
  = Ok (VArray []).
Proof.
  split; [reflexivity|].
  exact (convertMultipleValues_empty Sample.system "Volume" Volume
           VNull (VNum 3%float) eq_refl).
Defined.

Lemma convertWithSummary_echoes_witness :
  isCategory "Length" Length ∧
  Facade.convertWithSummary (Sample.system (num:=float))
    (VStr "Length") (VStr "m") (VStr "ft") (VNum 1%float)
  = Ok (VObject [ ("conversionType", VStr "Length");
                  ("convertFrom", VStr "m");
                  ("convertTo", VStr "ft");
                  ("numberToConvert", VNum 1%float);
                  ("convertedNumber", VNum (literal 328084 5)) ]).
Proof.
  split; [reflexivity|].
  apply (convertWithSummary_echoes Sample.system "Length" Length
           (VStr "m") (VStr "ft") (VNum 1%float) eq_refl).
  reflexivity.
Defined.

Lemma decimalPlaces_checked_before_dispatch_witness :
  isFiniteNumber (VStr "2" : value float) = false ∧
  Facade.convertAndRoundUp (Sample.system (num:=float))
    (VStr "no such category") VNull VNull VUndefined (VStr "2")
  = Throw (TypeError "Input must be a number").
Proof.
  split; [reflexivity|].
  exact (decimalPlaces_checked_before_dispatch Sample.system "no such category"
           VNull VNull VUndefined (VStr "2") eq_refl).
Defined.

(** The category argument is checked before [decimalPlaces]: with a category
    that is not a string, a [decimalPlaces] that is not a number is not what
    the call reports. *)
Lemma convertAndRoundUp_category_checked_first :
  isFiniteNumber (VStr "2" : value float) = false ∧
  Facade.convertAndRoundUp (Sample.system (num:=float))
    (VNum 5%float) (VStr "m") (VStr "ft") (VNum 2%float) (VStr "2")
  = Throw (TypeError "Input must be a string").
Proof. by split. Qed.

Lemma convertAndRoundUp_rounds_witness :
  isCategory "length" Length ∧
  ∃ r : float,
    Facade.convertAndRoundUp (Sample.system (num:=float))
      (VStr "length") (VStr "m") (VStr "ft") (VNum 2%float) (VNum 2%float)
    = Ok (VNum r).
Proof.
  split; [reflexivity|].
  assert (Hy : Facade.convert (Sample.system (num:=float)) Length
                 (VStr "m") (VStr "ft") (VNum 2%float) = Ok (literal 656168 5))
    by (vm_compute; reflexivity).
  assert (Hf : toIntegerOrInfinity 2%float = Some 2%Z) by (vm_compute; reflexivity).
  assert (Hrange : (0 ≤ 2 ≤ 100)%Z) by lia.
  destruct (convertAndRoundUp_rounds Sample.system "length" Length
              (VStr "m") (VStr "ft") (VNum 2%float) (literal 656168 5) 2%float 2%Z
              eq_refl Hy eq_refl Hf Hrange) as (r & Hr & _).
  by exists r.
Defined.

(** A valid length conversion with [decimalPlaces = -1]: the digits argument
    is out of the range of [toFixed], and the call throws instead of
    returning a rounded value. *)
Lemma convertAndRoundUp_negative_places :
  Facade.convert (Sample.system (num:=float)) Length
    (VStr "m") (VStr "ft") (VNum 2%float)
  = Ok (literal 656168 5) ∧
  Facade.convertAndRoundUp (Sample.system (num:=float))
    (VStr "length") (VStr "m") (VStr "ft") (VNum 2%float) (VNum (-1)%float)
  = Throw (RangeError "toFixed() digits argument must be between 0 and 100").
Proof. by split. Qed.

Lemma matching_ignores_case_witness :
  toLowerCase "Length" = toLowerCase "LENGTH" ∧
  ∀ lengths : LengthConverter float,
    Selector.convertLength lengths "Meters" "FT" 2%float
    = Selector.convertLength lengths "METERS" "ft" 2%float.
Proof.
  split; [reflexivity|]. intros lengths.
  pose proof (matching_ignores_case (num:=float)
                "Length" "LENGTH" "Meters" "METERS" "FT" "ft"
                eq_refl eq_refl eq_refl) as (Hunits & _).
  exact (proj1 (Hunits lengths (Formulas.weightConverter (literal 35274 6)) 2%float)).
Defined.

Lemma unit_round_trip_witness :
  Selector.convertLength (Formulas.lengthConverter (literal 393701 6 : Qc))
    "feet" "meters" (literal 656168 5) = Ok (literal 2 0) ∧
  ∃ z : float,
    Selector.convertLength (Formulas.lengthConverter (literal 393701 6 : float))
      "feet" "meters" (2 * literal 328084 5)%float = Ok z ∧
    closeTo 2%float z.
Proof.
  destruct (unit_round_trip "meters" "feet") as [Hexact Hbinary64]. split.
  - apply (Hexact (literal 393701 6) (literal 35274 6) (literal 2 0) (literal 656168 5)).
    + by apply ExactFacts.literal_nonzero.
    + by apply ExactFacts.literal_nonzero.
    + vm_compute. f_equal. apply Qc_is_canon. reflexivity.
  - apply (Hbinary64 (literal 393701 6) (literal 35274 6) 2%float).
    + unfold moderate. by vm_compute.
    + unfold moderate. by vm_compute.
    + unfold moderate. by vm_compute.
    + reflexivity.
Defined.

(** A valid length that is too large for its value in feet: 1e308 meters
    are [Infinity] feet, which the reverse call refuses as not a number;
    the reverse dispatch itself would return [Infinity], not 1e308. *)
Lemma binary64_round_trip_overflow :
  let convertLength := Facade.convertLength (Sample.system (num:=float)) in
  (literal (10 ^ 308) 0 : float) = 0x1.1ccf385ebc8ap+1023%float ∧
  convertLength (VStr "m") (VStr "ft") (VNum (literal (10 ^ 308) 0)) = Ok infinity ∧
  convertLength (VStr "ft") (VStr "m") (VNum infinity)
  = Throw (TypeError "Input must be a number") ∧
  lengthConverter (Sample.system (num:=float)) "ft" "m" infinity = Ok infinity.
Proof. vm_compute. by split_and!. Qed.

Lemma unknown_category_rejected_witness :
  Facade.convertWithSummary (Sample.system (num:=float))
    (VStr "Distance") (VStr "m") (VStr "ft") (VNum 2%float)
  = Throw (Error "Conversion not available").
Proof.
  apply (unknown_category_rejected Sample.system "Distance").
  intros Hin. vm_compute in Hin.
  repeat (apply elem_of_cons in Hin as [Hin|Hin]; [discriminate|]).
  by apply elem_of_nil in Hin.
Defined.

Lemma entry_point_validation_order_witness :
  let convertLength := Facade.convert (Sample.system (num:=float)) Length in
  convertLength (VNum 5%float) (VStr "ft") (VStr "two")
  = Throw (TypeError "Input must be a string") ∧
  convertLength (VStr "m") (VStr "ft") (VStr "two")
  = Throw (TypeError "Input must be a number") ∧
  convertLength (VStr "m") (VStr "in") (VNum (-2)%float)
  = Throw (ValueError "Number must be positive") ∧
  convertLength (VStr "Meters") (VStr "FT") (VNum 2%float)
  = lengthConverter Sample.system "Meters" "FT" 2%float.
Proof.
  split_and!.
  - apply (entry_point_validation_order Sample.system Length
             (VNum 5%float) (VStr "ft") (VStr "two")). reflexivity.
  - apply (entry_point_validation_order Sample.system Length
             (VStr "m") (VStr "ft") (VStr "two")); reflexivity.
  - apply (entry_point_validation_order Sample.system Length
             (VStr "m") (VStr "in") (VNum (-2)%float)); reflexivity.
  - by apply (entry_point_validation_order Sample.system Length
                (VStr "Meters") (VStr "FT") (VNum 2%float)).
Defined.


Lemma convertAndRoundUp_places_out_of_range_witness :
  Facade.convertAndRoundUp (Sample.system (num:=float))
    (VStr "length") (VStr "m") (VStr "ft") (VNum 2%float) (VNum 101%float)
  = Throw (RangeError "toFixed() digits argument must be between 0 and 100").
Proof.
  assert (Hy : Facade.convert (Sample.system (num:=float)) Length
                 (VStr "m") (VStr "ft") (VNum 2%float) = Ok (literal 656168 5))
    by (vm_compute; reflexivity).
  assert (Hf : toIntegerOrInfinity 101%float = Some 101%Z) by (vm_compute; reflexivity).
  assert (Hrange : (101 < 0 ∨ 100 < 101)%Z) by lia.
  exact (convertAndRoundUp_places_out_of_range Sample.system "length" Length
           (VStr "m") (VStr "ft") (VNum 2%float) (literal 656168 5) 101%float 101%Z
           eq_refl Hy eq_refl Hf Hrange).
Defined.

Lemma no_identity_no_chain_witness :
  let lengths := Formulas.lengthConverter (literal 393701 6 : float) in
  Selector.convertLength lengths "Meters" "METERS" 2%float
  = Throw (Error "Conversion not available") ∧
  Selector.convertLength lengths "m" "meters" 2%float
  = Throw (Error "Conversion not available").
Proof.
  split.
  - destruct (no_identity_no_chain (Formulas.lengthConverter (literal 393701 6 : float))
                (Formulas.weightConverter (literal 35274 6 : float))
                "Meters" "ft" "METERS" 2%float 2%float 2%float) as (Hsame & _ & _).
    exact (proj1 (Hsame eq_refl)).
  - destruct (no_identity_no_chain (Formulas.lengthConverter (literal 393701 6 : float))
                (Formulas.weightConverter (literal 35274 6 : float))
                "m" "ft" "meters" 2%float 2%float 2%float) as (_ & Hchain & _).
    apply Hchain; reflexivity.
Defined.

Lemma entry_point_returns_iff_witness :
  Facade.convert (Sample.system (num:=float)) Length (VStr "m") (VStr "ft") (VNum 2%float)
  = Ok (literal 656168 5).
Proof.
  apply (entry_point_returns_iff Sample.system Length
           (VStr "m") (VStr "ft") (VNum 2%float) (literal 656168 5)).
  exists "m", "ft", 2%float. split_and!; vm_compute; reflexivity.
Defined.

Lemma wrappers_check_shape_first_witness :
  Facade.convertMultipleValues (Sample.system (num:=float))
    (VNum 5%float) (VStr "m") (VStr "ft") (VStr "2")
  = Throw (TypeError "Input must be a string") ∧
  Facade.convertMultipleValues (Sample.system (num:=float))
    (VStr "no such category") (VStr "m") (VStr "ft") (VNum 2%float)
  = Throw (TypeError "Input must be an array").
Proof.
  split.
  - destruct (wrappers_check_shape_first (Sample.system (num:=float))
                (VNum 5%float) (VStr "m") (VStr "ft") (VStr "2") VNull) as [Hstring _].
    exact (proj1 (Hstring eq_refl)).
  - destruct (wrappers_check_shape_first (Sample.system (num:=float))
                (VStr "no such category") (VStr "m") (VStr "ft") (VNum 2%float) VNull)
      as [_ Harray].
    exact (Harray eq_refl eq_refl).
Defined.

Lemma conversion_error_before_rounding_witness :
  Facade.convertAndRoundUp (Sample.system (num:=float))
    (VStr "length") (VStr "m") (VStr "ft") (VNum (-2)%float) (VNum (-1)%float)
  = Throw (ValueError "Number must be positive").
Proof.
  apply (conversion_error_before_rounding Sample.system "length" Length
           (VStr "m") (VStr "ft") (VNum (-2)%float) (-1)%float); reflexivity.
Defined.

Lemma convertMultipleValues_app_witness :
  Facade.convertMultipleValues (Sample.system (num:=float))
    (VStr "length") (VStr "m") (VStr "ft") (VArray [VNum 1%float; VNum 2%float])
  = Ok (VArray [VNum (literal 328084 5); VNum (literal 656168 5)]).
Proof.
  destruct (convertMultipleValues_app (Sample.system (num:=float)) "length"
              (VStr "m") (VStr "ft") [VNum 1%float] [VNum 2%float]) as [Hjoin _].
  apply (Hjoin [VNum (literal 328084 5)] [VNum (literal 656168 5)]);
    vm_compute; reflexivity.
Defined.

Lemma wrappers_agree_on_success_witness :
  isOk (Facade.convertWithSummary (Sample.system (num:=float))
          (VStr "length") (VStr "m") (VStr "ft") (VNum 2%float)) = true.
Proof.
  destruct (wrappers_agree_on_success (Sample.system (num:=float)) "length"
              (VStr "m") (VStr "ft") (VNum 2%float) (VNum 2%float)) as (_ & _ & Hrounded).
  apply Hrounded. vm_compute. reflexivity.
Defined.

Lemma constructor_key_skips_validation_witness :
  Facade.convertWithSummary (Sample.system (num:=float))
    (VStr "Constructor") VNull (VNum 1%float) VUndefined
  = Ok (VObject [ ("conversionType", VStr "Constructor");
                  ("convertFrom", VNull);
                  ("convertTo", VNum 1%float);
                  ("numberToConvert", VUndefined);
                  ("convertedNumber", VObject []) ]).
Proof.
  exact (proj1 (constructor_key_skips_validation (Sample.system (num:=float))
                  "Constructor" VNull (VNum 1%float) VUndefined [] eq_refl)).
Defined.

Lemma proto_key_is_not_callable_witness :
  Facade.convertMultipleValues (Sample.system (num:=float))
    (VStr "__PROTO__") VNull VNull (VArray [])
  = Ok (VArray []).
Proof.
  exact (proj1 (proto_key_is_not_callable (Sample.system (num:=float))
                  "__PROTO__" VNull VNull VNull [] 2%float eq_refl eq_refl)).
Defined.

Lemma decimalPlaces_integer_part_witness :
  Facade.convertAndRoundUp (Sample.system (num:=float))
    (VStr "length") (VStr "m") (VStr "ft") (VNum 2%float) (VNum (literal 29 1))
  = Facade.convertAndRoundUp (Sample.system (num:=float))
      (VStr "length") (VStr "m") (VStr "ft") (VNum 2%float) (VNum 2%float).
Proof.
  apply (decimalPlaces_integer_part Sample.system "length"
           (VStr "m") (VStr "ft") (VNum 2%float) (literal 29 1) 2%float);
    vm_compute; reflexivity.
Defined.
